(** * Ballet action anticipation: the web client

    A shallow embedding of the React components of the front end
    ([VideoPlayer], [PredictionDisplay], [VideoUpload]) and the properties
    of the continuous-prediction timeline that the client relies on.

    Conventions of the embedding.
    - A JavaScript number that comes out of [response.json()] or out of the
      media element's [currentTime] is a finite double; every finite double
      is a rational, so such values are modelled in [Q] and compared with
      [==].  Results of a division, which may be [Infinity] or [NaN], live
      in [JS.number].  Rounding of the double operations is not modelled.
    - A React component is a state record, one function per event handler
      and a view function for what is rendered.  A handler that reads a
      property of [undefined] ends in [Throw].
    - The state setters and callbacks a handler calls are recorded, in
      program order, as a list of [Effect]s. *)

From Stdlib Require Import ZArith QArith Qround Qminmax Qabs.
From Stdlib Require Import List Sorted String Ascii Bool Lia Lqa DecimalString.
Import ListNotations.

(** ** JavaScript values *)

Module JS.

(** Numbers: finite doubles (as rationals), the infinities and NaN. *)
Inductive number : Type :=
| Fin (q : Q)
| Infinity
| NegInfinity
| NaN.

(** [a / b].  Zero divisors are taken as [+0]. *)
Definition div (a b : number) : number :=
  match a, b with
  | NaN, _ | _, NaN => NaN
  | Fin x, Fin y =>
      if Qeq_bool y 0 then
        if Qeq_bool x 0 then NaN
        else if Qle_bool 0 x then Infinity else NegInfinity
      else Fin (x / y)
  | Fin _, (Infinity | NegInfinity) => Fin 0
  | Infinity, Fin y => if Qle_bool 0 y then Infinity else NegInfinity
  | NegInfinity, Fin y => if Qle_bool 0 y then NegInfinity else Infinity
  | (Infinity | NegInfinity), (Infinity | NegInfinity) => NaN
  end.

(** [a * b]. *)
Definition mul (a b : number) : number :=
  let inf_times (pos : bool) (y : Q) :=
    if Qeq_bool y 0 then NaN
    else if Bool.eqb pos (Qle_bool 0 y) then Infinity else NegInfinity in
  match a, b with
  | NaN, _ | _, NaN => NaN
  | Fin x, Fin y => Fin (x * y)
  | Infinity, Fin y | Fin y, Infinity => inf_times true y
  | NegInfinity, Fin y | Fin y, NegInfinity => inf_times false y
  | Infinity, Infinity | NegInfinity, NegInfinity => Infinity
  | Infinity, NegInfinity | NegInfinity, Infinity => NegInfinity
  end.

(** Equality of numbers as values ([NaN] is only related to itself here:
    this is sameness of the computed value, not the [===] operator). *)
Definition same (a b : number) : Prop :=
  match a, b with
  | Fin x, Fin y => x == y
  | Infinity, Infinity | NegInfinity, NegInfinity | NaN, NaN => True
  | _, _ => False
  end.

(** [Math.floor] on a finite number. *)
Definition Math_floor (x : Q) : Z := Qfloor x.

(** [Math.max(...xs)]: [-Infinity] for no argument. *)
Definition Math_max (xs : list Q) : number :=
  match xs with
  | [] => NegInfinity
  | x :: rest => Fin (fold_left Qmax rest x)
  end.

(** [arr[i]] for an integral index: [undefined] (here [None]) outside
    [0 .. length-1]. *)
Definition index {A : Type} (arr : list A) (i : Z) : option A :=
  if (i <? 0)%Z then None else nth_error arr (Z.to_nat i).

(** [arr.map((x, i) => f x i)]. *)
Fixpoint mapi_from {A B : Type} (f : A -> nat -> B) (i : nat) (arr : list A)
  : list B :=
  match arr with
  | [] => []
  | x :: rest => f x i :: mapi_from f (S i) rest
  end.

Definition mapi {A B : Type} (f : A -> nat -> B) (arr : list A) : list B :=
  mapi_from f 0 arr.

(** [arr.slice(0, n)]. *)
Definition slice0 {A : Type} (n : nat) (arr : list A) : list A := firstn n arr.

(** *** Strings *)

(** [s.lastIndexOf(c)] for a one-character search string: the position of
    the last occurrence, [-1] when there is none.  [i] is the position of
    the head of [s] in the whole string. *)
Fixpoint lastIndexOf_from (c : ascii) (s : string) (i : Z) : Z :=
  match s with
  | EmptyString => (-1)%Z
  | String a rest =>
      let later := lastIndexOf_from c rest (i + 1)%Z in
      if (0 <=? later)%Z then later
      else if Ascii.eqb a c then i else (-1)%Z
  end.

Definition lastIndexOf (c : ascii) (s : string) : Z := lastIndexOf_from c s 0%Z.

Fixpoint drop (n : nat) (s : string) : string :=
  match n, s with
  | O, _ => s
  | S k, String _ rest => drop k rest
  | S _, EmptyString => EmptyString
  end.

(** [s.substring(start)]: [start] is clamped to [0 .. s.length]. *)
Definition substring_from (start : Z) (s : string) : string :=
  let len := Z.of_nat (String.length s) in
  drop (Z.to_nat (Z.min (Z.max start 0) len)) s.

(** Whether the character [c] occurs in [s]. *)
Fixpoint occurs (c : ascii) (s : string) : bool :=
  match s with
  | EmptyString => false
  | String a rest => Ascii.eqb a c || occurs c rest
  end.

(** [arr.includes(s)] on an array of strings. *)
Definition includes (arr : list string) (s : string) : bool :=
  existsb (String.eqb s) arr.

(** [arr.join(sep)]. *)
Definition join (sep : string) (arr : list string) : string :=
  String.concat sep arr.

(** [a || b] on strings: the empty string is the only falsy one. *)
Definition or_else (a b : string) : string :=
  match a with
  | EmptyString => b
  | _ => a
  end.

(** [toLowerCase] restricted to the ASCII letters. *)
Definition lower_ascii (a : ascii) : ascii :=
  let n := nat_of_ascii a in
  if (65 <=? n)%nat && (n <=? 90)%nat then ascii_of_nat (n + 32) else a.

Fixpoint toLowerCase_ascii (s : string) : string :=
  match s with
  | EmptyString => EmptyString
  | String a rest => String (lower_ascii a) (toLowerCase_ascii rest)
  end.

(** *** Number.prototype.toFixed *)

(** Decimal digits of a natural number. *)
Definition decimal (n : Z) : string :=
  DecimalString.NilZero.string_of_uint (N.to_uint (Z.to_N n)).

Fixpoint zeros (n : nat) : string :=
  match n with
  | O => EmptyString
  | S k => String "0" (zeros k)
  end.

(** [x.toFixed(f)]: with [n] the integer for which [n / 10^f - |x|] is
    closest to zero (the larger one on a tie), the digits of [n] with a
    point before the last [f] of them and a minus sign when [x < 0].
    From [10^21] on the result is that of [ToString], which is taken as a
    parameter. *)
Definition toFixed (Number_toString : Q -> string) (f : nat) (x : Q) : string :=
  let a := Qabs x in
  if Qle_bool (inject_Z (10 ^ 21)) a then Number_toString x
  else
    let n := Qfloor (a * inject_Z (10 ^ Z.of_nat f) + (1 # 2)) in
    let m := decimal n in
    let m := (zeros (S f - String.length m) ++ m)%string in
    let k := (String.length m - f)%nat in
    let sign := if Qle_bool 0 x then EmptyString else "-"%string in
    let whole := String.substring 0 k m in
    let fraction := drop k m in
    match f with
    | O => (sign ++ whole)%string
    | S _ => (sign ++ whole ++ "." ++ fraction)%string
    end.

End JS.

(** ** The prediction entry shared by all components *)

Record Prediction : Type := {
  action_id : Z;
  action_name : string;
  confidence : Q
}.

(** ** VideoPlayer *)

Module VideoPlayer.

Record PredictionResult : Type := {
  top_prediction : Prediction;
  top5_predictions : list Prediction;
  timestamp : option Q;
  segment : option string
}.

Record ContinuousPredictions : Type := {
  video_duration : Q;
  num_predictions : Z;
  predictions : list PredictionResult
}.

(** The [prediction] prop: [ContinuousPredictions | PredictionResult],
    told apart by ["predictions" in prediction]. *)
Inductive PredictionProp : Type :=
| Continuous (c : ContinuousPredictions)
| Single (r : PredictionResult).

Definition isContinuous (prediction : PredictionProp) : bool :=
  match prediction with Continuous _ => true | Single _ => false end.

(** The local [predictions] of the component body. *)
Definition predictionList (prediction : PredictionProp) : list PredictionResult :=
  match prediction with
  | Continuous c => predictions c
  | Single r => [r]
  end.

(** The [useState] cells ([videoUrl] is an opaque object URL and is left out). *)
Record State : Type := {
  isPlaying : bool;
  currentTime : Q;
  duration : Q;
  displayedPrediction : Prediction;
  currentSegment : Z
}.

Inductive Completion : Type :=
| Normal (s : State)
| Throw.

(** First render: the initial values of the state cells. *)
Definition initState (prediction : PredictionProp) : Completion :=
  match JS.index (predictionList prediction) 0 with
  | None => Throw
  | Some first =>
      Normal {| isPlaying := false;
                currentTime := 0;
                duration := 0;
                displayedPrediction := top_prediction first;
                currentSegment := 0 |}
  end.

(** The segment a playback time falls in (one every 10 seconds). *)
Definition segmentIndex (time : Q) : Z := JS.Math_floor (time / 10).

(** The guard of [handleTimeUpdate]. *)
Definition segmentChanged (prediction : PredictionProp) (s : State) (time : Q)
  : bool :=
  (segmentIndex time <? Z.of_nat (List.length (predictionList prediction)))%Z
  && negb (segmentIndex time =? currentSegment s)%Z.

(** [handleTimeUpdate]; [video] is [videoRef.current], given by the
    [currentTime] of the element when the ref is attached.  The
    [console.log] of the update is not part of the state and is left out.
    [Throw] stands for the TypeError of reading [top_prediction] of
    [undefined]. *)
Definition handleTimeUpdate (prediction : PredictionProp)
    (video : option Q) (s : State) : Completion :=
  match video with
  | None => Normal s
  | Some time =>
      if segmentChanged prediction s time then
        match JS.index (predictionList prediction) (segmentIndex time) with
        | None => Throw
        | Some seg =>
            Normal {| isPlaying := isPlaying s;
                      currentTime := time;
                      duration := duration s;
                      displayedPrediction := top_prediction seg;
                      currentSegment := segmentIndex time |}
        end
      else
        Normal {| isPlaying := isPlaying s;
                  currentTime := time;
                  duration := duration s;
                  displayedPrediction := displayedPrediction s;
                  currentSegment := currentSegment s |}
  end.

(** A run of the player: the first render followed by time updates of an
    attached video element. *)
Fixpoint play (prediction : PredictionProp) (times : list Q) (s : State)
  : Completion :=
  match times with
  | [] => Normal s
  | time :: later =>
      match handleTimeUpdate prediction (Some time) s with
      | Normal s' => play prediction later s'
      | Throw => Throw
      end
  end.

(** The invariant of a run: what is shown on top is the [top_prediction]
    of the current segment of [prediction]. *)
Definition showsCurrentSegment (prediction : PredictionProp) (s : State) : Prop :=
  exists seg,
    JS.index (predictionList prediction) (currentSegment s) = Some seg
    /\ displayedPrediction s = top_prediction seg.

(** *** What is rendered *)

(** One row of the "Top 5 Predictions" list. *)
Record Row : Type := {
  key : Z;
  rank : nat;
  name : string;
  confidenceText : string;
  width : JS.number
}.

Record View : Type := {
  headline : string;
  confidenceLine : string;
  rows : list Row
}.

(** The width of a bar, before ["%"] is appended: the entry's confidence
    over the confidence of the first entry of the segment, times 100. *)
Definition barWidth (first prediction : Prediction) : JS.number :=
  JS.mul (JS.div (JS.Fin (confidence prediction)) (JS.Fin (confidence first)))
         (JS.Fin 100).

Section Render.

Variable Number_toString : Q -> string.

(** [predictions[currentSegment]?.top5_predictions.slice(0, 5).map(...)];
    the callback reads [top5_predictions[0]] of the same segment, which
    is there whenever the callback runs. *)
Definition top5Rows (prediction : PredictionProp) (s : State) : list Row :=
  match JS.index (predictionList prediction) (currentSegment s) with
  | None => []
  | Some seg =>
      match top5_predictions seg with
      | [] => []
      | first :: _ =>
          JS.mapi
            (fun p index =>
               {| key := action_id p;
                  rank := index + 1;
                  name := action_name p;
                  confidenceText := JS.toFixed Number_toString 2 (confidence p);
                  width := barWidth first p |})
            (JS.slice0 5 (top5_predictions seg))
      end
  end.

Definition render (prediction : PredictionProp) (s : State) : View :=
  {| headline := action_name (displayedPrediction s);
     confidenceLine :=
       JS.toFixed Number_toString 2 (confidence (displayedPrediction s));
     rows := top5Rows prediction s |}.

End Render.

End VideoPlayer.

(** ** PredictionDisplay *)

Module PredictionDisplay.

Record ModelInfo : Type := {
  accuracy : Q;
  input_shape : list Z;
  num_classes : Z
}.

Record PredictionResult : Type := {
  top_prediction : Prediction;
  top5_predictions : list Prediction;
  all_predictions : list Q;
  model_info : ModelInfo
}.

Record Row : Type := {
  key : Z;
  rank : nat;
  name : string;
  confidenceText : string;
  width : JS.number
}.

Record View : Type := {
  headline : string;
  idLine : Z;
  confidenceLine : string;
  rows : list Row
}.

(** [Math.max(...top5_predictions.map((p) => p.confidence))]. *)
Definition maxConfidence (prediction : PredictionResult) : JS.number :=
  JS.Math_max (map confidence (top5_predictions prediction)).

Definition barWidth (maxConfidence : JS.number) (p : Prediction) : JS.number :=
  JS.mul (JS.div (JS.Fin (confidence p)) maxConfidence) (JS.Fin 100).

Section Render.

Variable Number_toString : Q -> string.

Definition render (prediction : PredictionResult) : View :=
  {| headline := action_name (top_prediction prediction);
     idLine := action_id (top_prediction prediction);
     confidenceLine :=
       JS.toFixed Number_toString 2 (confidence (top_prediction prediction));
     rows :=
       JS.mapi
         (fun p index =>
            {| key := action_id p;
               rank := index + 1;
               name := action_name p;
               confidenceText := JS.toFixed Number_toString 2 (confidence p);
               width := barWidth (maxConfidence prediction) p |})
         (top5_predictions prediction) |}.

End Render.

End PredictionDisplay.

(** ** VideoUpload, with the cells of the page it reports to *)

Module VideoUpload.

Local Open Scope string_scope.

(** A [File]: its name and what it holds. *)
Record File : Type := {
  name : string;
  content : string
}.

(** A promise that has settled. *)
Inductive Settled (A : Type) : Type :=
| Resolved (a : A)
| Rejected (message : string).

Arguments Resolved {A} a.
Arguments Rejected {A} message.

(** The two "Select Pipeline" buttons and the identifier each one sets. *)
Inductive ModelButton : Type :=
| GruButton
| TransformerButton.

Definition modelOf (b : ModelButton) : string :=
  match b with
  | GruButton => "gru"
  | TransformerButton => "transformer"
  end.

Definition allowedTypes : list string :=
  [".mp4"; ".avi"; ".mov"; ".mkv"; ".webm"].

Definition predictUrl (modelType : string) : string :=
  "http://localhost:8001/predict-continuous?model_type=" ++ modelType.

Section Component.

(** The parsed body of a response. *)
Variable Json : Type.

(** [error.detail] of a parsed error body, as the message [new Error]
    makes of it: [Resolved None] when it is falsy, [Rejected] when the
    read itself throws. *)
Variable detail : Json -> Settled (option string).

(** [String.prototype.toLowerCase]. *)
Variable toLowerCase : string -> string.

(** What [fetch] resolves with. *)
Record Response : Type := {
  ok : bool;
  json : Settled Json
}.

(** The state setters, callbacks and requests a handler calls. *)
Inductive Effect : Type :=
| SetLoading (loading : bool)
| SetError (error : option string)
| SetUploadError (error : option string)
| SetUploadedFile (file : File)
| OnVideoSelect (name : string)
| Fetch (url : string) (method : string) (file : File)
| OnPredictFromVideo (result : Json) (videoFile : File).

(** The cells of [VideoUpload] ([uploadedFile], [uploadError],
    [selectedModel]), the cells of the page that its props reach, and
    the files of the requests that have not settled yet. *)
Record State : Type := {
  uploadedFile : option File;
  uploadError : option string;
  selectedModel : string;
  prediction : option Json;
  loading : bool;
  error : option string;
  selectedVideo : option string;
  uploadedVideoFile : option File;
  pending : list File
}.

Definition initial : State :=
  {| uploadedFile := None;
     uploadError := None;
     selectedModel := "gru";
     prediction := None;
     loading := false;
     error := None;
     selectedVideo := None;
     uploadedVideoFile := None;
     pending := [] |}.

Definition apply (s : State) (e : Effect) : State :=
  match e with
  | SetLoading b =>
      {| uploadedFile := uploadedFile s; uploadError := uploadError s;
         selectedModel := selectedModel s; prediction := prediction s;
         loading := b; error := error s;
         selectedVideo := selectedVideo s;
         uploadedVideoFile := uploadedVideoFile s; pending := pending s |}
  | SetError m =>
      {| uploadedFile := uploadedFile s; uploadError := uploadError s;
         selectedModel := selectedModel s; prediction := prediction s;
         loading := loading s; error := m;
         selectedVideo := selectedVideo s;
         uploadedVideoFile := uploadedVideoFile s; pending := pending s |}
  | SetUploadError m =>
      {| uploadedFile := uploadedFile s; uploadError := m;
         selectedModel := selectedModel s; prediction := prediction s;
         loading := loading s; error := error s;
         selectedVideo := selectedVideo s;
         uploadedVideoFile := uploadedVideoFile s; pending := pending s |}
  | SetUploadedFile f =>
      {| uploadedFile := Some f; uploadError := uploadError s;
         selectedModel := selectedModel s; prediction := prediction s;
         loading := loading s; error := error s;
         selectedVideo := selectedVideo s;
         uploadedVideoFile := uploadedVideoFile s; pending := pending s |}
  | OnVideoSelect n =>
      {| uploadedFile := uploadedFile s; uploadError := uploadError s;
         selectedModel := selectedModel s; prediction := prediction s;
         loading := loading s; error := error s;
         selectedVideo := Some n;
         uploadedVideoFile := uploadedVideoFile s; pending := pending s |}
  | Fetch _ _ f =>
      {| uploadedFile := uploadedFile s; uploadError := uploadError s;
         selectedModel := selectedModel s; prediction := prediction s;
         loading := loading s; error := error s;
         selectedVideo := selectedVideo s;
         uploadedVideoFile := uploadedVideoFile s;
         pending := pending s ++ [f] |}
  | OnPredictFromVideo result f =>
      {| uploadedFile := uploadedFile s; uploadError := uploadError s;
         selectedModel := selectedModel s; prediction := Some result;
         loading := loading s; error := error s;
         selectedVideo := selectedVideo s;
         uploadedVideoFile := Some f; pending := pending s |}
  end.

Definition applyAll (s : State) (effects : list Effect) : State :=
  fold_left apply effects s.

(** [processVideoWithModel] up to its [await fetch(...)]. *)
Definition processVideoWithModel_begin (file : File) (modelType : string)
  : list Effect :=
  [SetLoading true; SetError None; SetUploadError None;
   Fetch (predictUrl modelType) "POST" file].

(** The rest of the [try] block once [fetch] has settled: the value
    handed to [onPredictFromVideo], or the message of what was thrown. *)
Definition tryBody (outcome : Settled Response) : Json + string :=
  match outcome with
  | Rejected message => inr message
  | Resolved response =>
      if negb (ok response) then
        match json response with
        | Rejected message => inr message
        | Resolved error =>
            match detail error with
            | Rejected message => inr message
            | Resolved (Some d) => inr d
            | Resolved None => inr "Failed to process video"
            end
        end
      else
        match json response with
        | Rejected message => inr message
        | Resolved result => inl result
        end
  end.

(** [processVideoWithModel] from the point where [fetch] settles:
    the [try] block, then [catch], then [finally]. *)
Definition processVideoWithModel_resume (file : File)
    (outcome : Settled Response) : list Effect :=
  match tryBody outcome with
  | inl result => [OnPredictFromVideo result file]
  | inr message =>
      let errorMsg := JS.or_else message "Failed to process video" in
      [SetUploadError (Some errorMsg); SetError (Some errorMsg)]
  end
  ++ [SetLoading false].

(** One whole call of [processVideoWithModel]. *)
Definition processVideoWithModel (file : File) (modelType : string)
    (outcome : Settled Response) : list Effect :=
  processVideoWithModel_begin file modelType
  ++ processVideoWithModel_resume file outcome.

(** The body of the [useEffect] that depends on [selectedModel]. *)
Definition modelEffect (s : State) : list Effect :=
  match uploadedFile s with
  | Some file =>
      if negb (loading s) then
        processVideoWithModel_begin file (selectedModel s)
      else []
  | None => []
  end.

Definition fileExt (file : File) : string :=
  toLowerCase
    (JS.substring_from (JS.lastIndexOf "." (name file)) (name file)).

Definition extensionMessage : string :=
  "Please upload a video file (" ++ JS.join ", " allowedTypes ++ ")".

(** [handleVideoUpload] up to the [await] of the request;
    [chosen] is [event.target.files?.[0]]. *)
Definition handleVideoUpload (chosen : option File) (s : State)
  : list Effect :=
  match chosen with
  | None => []
  | Some file =>
      SetUploadError None ::
      if negb (JS.includes allowedTypes (fileExt file)) then
        [SetUploadError (Some extensionMessage)]
      else
        SetUploadedFile file :: OnVideoSelect (name file) ::
        processVideoWithModel_begin file (selectedModel s)
  end.

(** A click on a model button.  The buttons are [disabled] while
    [loading]; setting the model it already has does not render again;
    a change renders and then runs the effect of [selectedModel]. *)
Definition clickModel (b : ModelButton) (s : State) : State * list Effect :=
  if loading s then (s, [])
  else if String.eqb (modelOf b) (selectedModel s) then (s, [])
  else
    let s' :=
      {| uploadedFile := uploadedFile s; uploadError := uploadError s;
         selectedModel := modelOf b; prediction := prediction s;
         loading := loading s; error := error s;
         selectedVideo := selectedVideo s;
         uploadedVideoFile := uploadedVideoFile s; pending := pending s |} in
    (applyAll s' (modelEffect s'), modelEffect s').

(** Taking the [i]-th pending request out. *)
Fixpoint take {A : Type} (i : nat) (l : list A) : option (A * list A) :=
  match l, i with
  | [], _ => None
  | x :: rest, O => Some (x, rest)
  | x :: rest, S k =>
      match take k rest with
      | Some (y, rest') => Some (y, x :: rest')
      | None => None
      end
  end.

(** What can happen to the component. *)
Inductive Event : Type :=
| Click (b : ModelButton)
| Change (chosen : option File)
| Settle (i : nat) (outcome : Settled Response).

Definition step (s : State) (ev : Event) : State * list Effect :=
  match ev with
  | Click b => clickModel b s
  | Change chosen =>
      (applyAll s (handleVideoUpload chosen s), handleVideoUpload chosen s)
  | Settle i outcome =>
      match take i (pending s) with
      | None => (s, [])
      | Some (file, rest) =>
          let s' :=
            {| uploadedFile := uploadedFile s; uploadError := uploadError s;
               selectedModel := selectedModel s; prediction := prediction s;
               loading := loading s; error := error s;
               selectedVideo := selectedVideo s;
               uploadedVideoFile := uploadedVideoFile s; pending := rest |} in
          (applyAll s' (processVideoWithModel_resume file outcome),
           processVideoWithModel_resume file outcome)
      end
  end.

(** A session: the state reached and everything that was called. *)
Fixpoint run (s : State) (events : list Event) : State * list Effect :=
  match events with
  | [] => (s, [])
  | ev :: later =>
      let (s1, effects1) := step s ev in
      let (s2, effects2) := run s1 later in
      (s2, (effects1 ++ effects2)%list)
  end.

(** The requests among the effects, as (url, file). *)
Fixpoint requests (effects : list Effect) : list (string * File) :=
  match effects with
  | [] => []
  | Fetch url _ file :: rest => (url, file) :: requests rest
  | _ :: rest => requests rest
  end.

Definition isCallback (e : Effect) : bool :=
  match e with
  | OnPredictFromVideo _ _ => true
  | _ => false
  end.

(** The request did not produce a result: [fetch] threw, the response
    was not ok, or its body could not be read. *)
Definition failed (outcome : Settled Response) : bool :=
  match outcome with
  | Resolved {| ok := true; json := Resolved _ |} => false
  | _ => true
  end.

End Component.

Arguments SetLoading {Json} loading.
Arguments SetError {Json} error.
Arguments SetUploadError {Json} error.
Arguments SetUploadedFile {Json} file.
Arguments OnVideoSelect {Json} name.
Arguments Fetch {Json} url method file.
Arguments OnPredictFromVideo {Json} result videoFile.
Arguments Click {Json} b.
Arguments Change {Json} chosen.
Arguments Settle {Json} i outcome.
Arguments uploadedFile {Json} s.
Arguments uploadError {Json} s.
Arguments selectedModel {Json} s.
Arguments prediction {Json} s.
Arguments loading {Json} s.
Arguments error {Json} s.
Arguments selectedVideo {Json} s.
Arguments uploadedVideoFile {Json} s.
Arguments pending {Json} s.
Arguments ok {Json} r.
Arguments json {Json} r.
Arguments Build_Response {Json} ok json.
Arguments apply {Json} s e.
Arguments applyAll {Json} s effects.
Arguments requests {Json} effects.
Arguments isCallback {Json} e.
Arguments failed {Json} outcome.
Arguments processVideoWithModel_begin {Json} file modelType.
Arguments tryBody {Json} detail outcome.
Arguments processVideoWithModel_resume {Json} detail file outcome.
Arguments processVideoWithModel {Json} detail file modelType outcome.
Arguments modelEffect {Json} s.
Arguments handleVideoUpload {Json} toLowerCase chosen s.
Arguments clickModel {Json} b s.
Arguments step {Json} detail toLowerCase s ev.
Arguments run {Json} detail toLowerCase s events.

(** The identifiers the server knows. *)
Definition knownModel (modelType : string) : Prop :=
  modelType = "gru" \/ modelType = "transformer".

(** The session invariant: the selected model is a known one, and while
    [loading] is set some request has not settled. *)
Definition consistent {Json : Type} (s : State Json) : Prop :=
  knownModel (selectedModel s) /\ (loading s = true -> pending s <> []).

(** Every request among the effects goes to the predict endpoint with a
    known model. *)
Definition knownRequests {Json : Type} (effects : list (Effect Json)) : Prop :=
  Forall (fun r => exists m, knownModel m /\ fst r = predictUrl m)
         (requests effects).

(** A sample session: a file name, a response body type and two responses. *)
Definition clip : File := {| name := "swan.lake.MP4"; content := "<bytes>" |}.
Definition notes : File := {| name := "notes.txt"; content := "plain text" |}.

Definition sampleDetail (body : string) : Settled (option string) :=
  match body with
  | EmptyString => Resolved None
  | _ => Resolved (Some body)
  end.

Definition okResponse : Response string :=
  {| ok := true; json := Resolved "{predictions}" |}.
Definition errorResponse : Response string :=
  {| ok := false; json := Resolved "Invalid file type" |}.

End VideoUpload.

(** ** The ordering a ranked top-5 list is expected to have *)

Module Ranking.

(** [a] is ranked before [b]: its score is not smaller. *)
Definition before (a b : Prediction) : Prop := confidence b <= confidence a.

(** Scores are non-increasing and non-negative, and the first is positive. *)
Definition ordered (top5 : list Prediction) : Prop :=
  Sorted before top5
  /\ Forall (fun p => 0 <= confidence p) top5
  /\ match top5 with
     | first :: _ => 0 < confidence first
     | [] => False
     end.

End Ranking.

(** ** Sample data: a 25-second video and its timeline *)

Module Sample.

Local Open Scope string_scope.

Definition pirouette : Prediction :=
  {| action_id := 0; action_name := "Pirouette"; confidence := 9 # 10 |}.
Definition arabesque : Prediction :=
  {| action_id := 2; action_name := "Arabesque"; confidence := 3 # 5 |}.
Definition attitude : Prediction :=
  {| action_id := 6; action_name := "Attitude"; confidence := 3 # 10 |}.

Definition seg0 : VideoPlayer.PredictionResult :=
  {| VideoPlayer.top_prediction := pirouette;
     VideoPlayer.top5_predictions := [pirouette; arabesque; attitude];
     VideoPlayer.timestamp := Some 0;
     VideoPlayer.segment := Some "0-10s" |}.
Definition seg1 : VideoPlayer.PredictionResult :=
  {| VideoPlayer.top_prediction := arabesque;
     VideoPlayer.top5_predictions := [arabesque; attitude];
     VideoPlayer.timestamp := Some 10;
     VideoPlayer.segment := Some "10-20s" |}.
Definition seg2 : VideoPlayer.PredictionResult :=
  {| VideoPlayer.top_prediction := attitude;
     VideoPlayer.top5_predictions := [attitude; pirouette];
     VideoPlayer.timestamp := Some 20;
     VideoPlayer.segment := Some "20-25s" |}.

Definition timeline : VideoPlayer.ContinuousPredictions :=
  {| VideoPlayer.video_duration := 25;
     VideoPlayer.num_predictions := 3;
     VideoPlayer.predictions := [seg0; seg1; seg2] |}.

Definition prop : VideoPlayer.PredictionProp := VideoPlayer.Continuous timeline.

(** The player as first rendered for [timeline]. *)
Definition start : VideoPlayer.State :=
  {| VideoPlayer.isPlaying := false;
     VideoPlayer.currentTime := 0;
     VideoPlayer.duration := 0;
     VideoPlayer.displayedPrediction := pirouette;
     VideoPlayer.currentSegment := 0 |}.

(** The player while it shows the last segment. *)
Definition late : VideoPlayer.State :=
  {| VideoPlayer.isPlaying := true;
     VideoPlayer.currentTime := 22;
     VideoPlayer.duration := 25;
     VideoPlayer.displayedPrediction := attitude;
     VideoPlayer.currentSegment := 2 |}.

(** The first segment as the single-result display gets it. *)
Definition single : PredictionDisplay.PredictionResult :=
  {| PredictionDisplay.top_prediction := pirouette;
     PredictionDisplay.top5_predictions := [pirouette; arabesque; attitude];
     PredictionDisplay.all_predictions := [9 # 10; 0; 3 # 5; 0; 0; 0; 3 # 10];
     PredictionDisplay.model_info :=
       {| PredictionDisplay.accuracy := 6588 # 100;
          PredictionDisplay.input_shape := [1; 10; 2048]%Z;
          PredictionDisplay.num_classes := 11 |} |}.

(** A single result that lists seven entries. *)
Definition crowded : VideoPlayer.PredictionResult :=
  {| VideoPlayer.top_prediction := pirouette;
     VideoPlayer.top5_predictions :=
       [pirouette; arabesque; attitude; attitude; arabesque; pirouette; attitude];
     VideoPlayer.timestamp := None;
     VideoPlayer.segment := None |}.

(** Two lists that are not ordered: the first score is not the largest,
    and the first score is zero. *)
Definition faint : Prediction :=
  {| action_id := 5; action_name := "Balancing Extension"; confidence := 1 # 10 |}.
Definition none : Prediction :=
  {| action_id := 9; action_name := "Waltz Step"; confidence := 0 |}.

End Sample.

(** ** VideoPlayer: the other handlers, and a whole session *)

Module PlayerSession.

Import VideoPlayer.

(** Calls a handler makes on the media element. *)
Inductive MediaCall : Type :=
| CallPlay
| CallPause.

(** [handleLoadedMetadata]; [video] is [videoRef.current], given by the
    [duration] of the element when the ref is attached. *)
Definition handleLoadedMetadata (video : option Q) (s : State) : State :=
  match video with
  | None => s
  | Some d =>
      {| isPlaying := isPlaying s;
         currentTime := currentTime s;
         duration := d;
         displayedPrediction := displayedPrediction s;
         currentSegment := currentSegment s |}
  end.

(** [setIsPlaying(b)], as [onPlay] and [onPause] call it. *)
Definition setIsPlaying (b : bool) (s : State) : State :=
  {| isPlaying := b;
     currentTime := currentTime s;
     duration := duration s;
     displayedPrediction := displayedPrediction s;
     currentSegment := currentSegment s |}.

(** [handlePlayPause]; [attached] tells whether [videoRef.current] is set.
    The rejection of [play()] is only logged. *)
Definition handlePlayPause (attached : bool) (s : State) : State * list MediaCall :=
  if attached then
    (setIsPlaying (negb (isPlaying s)) s,
     [if isPlaying s then CallPause else CallPlay])
  else (s, []).

(** What can happen to a mounted player: what the video element and the
    button fire, and a render by the page with a new [prediction] prop. *)
Inductive Event : Type :=
| TimeUpdate (video : option Q)
| LoadedMetadata (video : option Q)
| PlayPause (attached : bool)
| Play
| Pause
| Rerender (prediction : PredictionProp).

(** A later render of the same instance (the page renders [VideoPlayer]
    without a key): [useState] keeps the cells and ignores its argument, but
    the argument [predictions[0].top_prediction] is evaluated all the same. *)
Definition rerender (prediction : PredictionProp) (s : State) : Completion :=
  match JS.index (predictionList prediction) 0 with
  | None => Throw
  | Some _ => Normal s
  end.

(** One event, handled by the closures of the render with [prediction]. *)
Definition handle (prediction : PredictionProp) (s : State) (ev : Event)
  : Completion :=
  match ev with
  | TimeUpdate video => handleTimeUpdate prediction video s
  | LoadedMetadata video => Normal (handleLoadedMetadata video s)
  | PlayPause attached => Normal (fst (handlePlayPause attached s))
  | Play => Normal (setIsPlaying true s)
  | Pause => Normal (setIsPlaying false s)
  | Rerender next => rerender next s
  end.

(** The prop of the render that follows an event. *)
Definition propAfter (prediction : PredictionProp) (ev : Event) : PredictionProp :=
  match ev with
  | Rerender next => next
  | _ => prediction
  end.

(** A session of a mounted player whose latest render had [prediction]. *)
Fixpoint session (prediction : PredictionProp) (events : list Event) (s : State)
  : Completion :=
  match events with
  | [] => Normal s
  | ev :: later =>
      match handle prediction s ev with
      | Normal s' => session (propAfter prediction ev) later s'
      | Throw => Throw
      end
  end.

(** The prop of the latest render, and the props of the later renders. *)
Fixpoint currentProp (prediction : PredictionProp) (events : list Event)
  : PredictionProp :=
  match events with
  | [] => prediction
  | ev :: later => currentProp (propAfter prediction ev) later
  end.

Fixpoint given (events : list Event) : list PredictionProp :=
  match events with
  | [] => []
  | Rerender next :: later => next :: given later
  | _ :: later => given later
  end.

(** The times a media element reports are not negative, and a response the
    page renders the player with has at least one prediction. *)
Definition expected (ev : Event) : Prop :=
  match ev with
  | TimeUpdate (Some t) => 0 <= t
  | Rerender next => predictionList next <> []
  | _ => True
  end.

(** The segment on display after the time updates [times], starting from
    [current], for a timeline of [n] segments: that of the last time that
    falls inside the timeline. *)
Fixpoint lastShown (n : Z) (times : list Q) (current : Z) : Z :=
  match times with
  | [] => current
  | t :: later =>
      lastShown n later
        (if (segmentIndex t <? n)%Z then segmentIndex t else current)
  end.

(** The line under the video: [Math.floor(currentTime)] and
    [Math.floor(duration)], each followed by "s". *)
Definition timelineInfo (s : State) : Z * Z :=
  (JS.Math_floor (currentTime s), JS.Math_floor (duration s)).

(** "Analyzing segment [currentSegment + 1] of [predictions.length]", shown
    when [currentSegment > 0]. *)
Definition segmentNote (prediction : PredictionProp) (s : State) : option (Z * Z) :=
  if (0 <? currentSegment s)%Z then
    Some ((currentSegment s + 1)%Z,
          Z.of_nat (List.length (predictionList prediction)))
  else None.

End PlayerSession.

(** ** The colours of the bars *)

Module BarColor.

Local Open Scope string_scope.

(** The class chosen by [index] in the rows of [VideoPlayer]. *)
Definition player (index : nat) : string :=
  match index with
  | 0 => "bg-purple-600"
  | 1 => "bg-blue-400"
  | 2 => "bg-cyan-400"
  | 3 => "bg-teal-400"
  | 4 => "bg-green-400"
  | 5 => "bg-green-200"
  | _ => "bg-green-400"
  end%nat.

(** The class chosen by [index] in the rows of [PredictionDisplay]. *)
Definition display (index : nat) : string :=
  match index with
  | 0 => "bg-purple-600"
  | 1 => "bg-blue-400"
  | 2 => "bg-cyan-400"
  | 3 => "bg-teal-400"
  | 4 => "bg-green-400"
  | 5 => "bg-green-400"
  | _ => "bg-green-400"
  end%nat.

(** The colours of the rows [VideoPlayer] renders, top to bottom. *)
Definition playerRows (prediction : VideoPlayer.PredictionProp)
    (s : VideoPlayer.State) : list string :=
  match JS.index (VideoPlayer.predictionList prediction)
                 (VideoPlayer.currentSegment s) with
  | None => []
  | Some seg =>
      JS.mapi (fun _ index => player index)
              (JS.slice0 5 (VideoPlayer.top5_predictions seg))
  end.

(** The colours of the rows [PredictionDisplay] renders. *)
Definition displayRows (prediction : PredictionDisplay.PredictionResult)
  : list string :=
  JS.mapi (fun _ index => display index)
          (PredictionDisplay.top5_predictions prediction).

End BarColor.

(** ** The page around VideoUpload, and bookkeeping over a session *)

Module Home.

Import VideoUpload.
Local Open Scope string_scope.

Section Page.

Variable Json : Type.

(** Whether a parsed body is truthy. *)
Variable truthy : Json -> bool.

(** [prediction && uploadedVideoFile]: the player is rendered. *)
Definition playerShown (s : State Json) : bool :=
  match prediction s, uploadedVideoFile s with
  | Some result, Some _ => truthy result
  | _, _ => false
  end.

(** [error && ...] and [uploadError && ...]: the text of a banner. *)
Definition banner (message : option string) : option string :=
  match message with
  | Some EmptyString => None
  | Some m => Some m
  | None => None
  end.

(** The last call of [onPredictFromVideo] among the effects. *)
Fixpoint lastCallback (effects : list (Effect Json)) : option (Json * File) :=
  match effects with
  | [] => None
  | e :: rest =>
      match lastCallback rest with
      | Some c => Some c
      | None =>
          match e with
          | OnPredictFromVideo result file => Some (result, file)
          | _ => None
          end
      end
  end.

(** How many results were delivered, and how many errors reported to the page. *)
Fixpoint delivered (effects : list (Effect Json)) : nat :=
  match effects with
  | [] => 0
  | OnPredictFromVideo _ _ :: rest => S (delivered rest)
  | _ :: rest => delivered rest
  end.

Fixpoint reported (effects : list (Effect Json)) : nat :=
  match effects with
  | [] => 0
  | SetError (Some _) :: rest => S (reported rest)
  | _ :: rest => reported rest
  end.

(** The files handed to [onPredictFromVideo]. *)
Fixpoint deliveredFiles (effects : list (Effect Json)) : list File :=
  match effects with
  | [] => []
  | OnPredictFromVideo _ file :: rest => file :: deliveredFiles rest
  | _ :: rest => deliveredFiles rest
  end.

Variable detail : Json -> Settled (option string).
Variable toLowerCase : string -> string.

(** The file passes the extension check of [handleVideoUpload]. *)
Definition allowed (file : File) : Prop :=
  JS.includes allowedTypes (fileExt toLowerCase file) = true.

(** The dialog is opened by a button that is disabled while [loading]:
    in a session that respects it, a file arrives only when [loading] is off. *)
Fixpoint respectsDisabled (s : State Json) (events : list (Event Json)) : bool :=
  match events with
  | [] => true
  | ev :: later =>
      match ev with
      | Change (Some _) => negb (loading s)
      | _ => true
      end
      && respectsDisabled (fst (step detail toLowerCase s ev)) later
  end.

End Page.

Arguments playerShown {Json} truthy s.
Arguments lastCallback {Json} effects.
Arguments delivered {Json} effects.
Arguments reported {Json} effects.
Arguments deliveredFiles {Json} effects.
Arguments respectsDisabled {Json} detail toLowerCase s events.

End Home.

(** ** The same video run again: other responses for the sample video *)

Module Rerun.

(** The response of the other model: the same three windows, other classes. *)
Definition other0 : VideoPlayer.PredictionResult :=
  {| VideoPlayer.top_prediction := Sample.attitude;
     VideoPlayer.top5_predictions := [Sample.attitude; Sample.arabesque];
     VideoPlayer.timestamp := Some 0;
     VideoPlayer.segment := None |}.
Definition other1 : VideoPlayer.PredictionResult :=
  {| VideoPlayer.top_prediction := Sample.pirouette;
     VideoPlayer.top5_predictions := [Sample.pirouette; Sample.attitude];
     VideoPlayer.timestamp := Some 10;
     VideoPlayer.segment := None |}.
Definition other2 : VideoPlayer.PredictionResult :=
  {| VideoPlayer.top_prediction := Sample.arabesque;
     VideoPlayer.top5_predictions := [Sample.arabesque; Sample.pirouette];
     VideoPlayer.timestamp := Some 20;
     VideoPlayer.segment := None |}.

Definition other : VideoPlayer.PredictionProp :=
  VideoPlayer.Continuous
    {| VideoPlayer.video_duration := 25;
       VideoPlayer.num_predictions := 3;
       VideoPlayer.predictions := [other0; other1; other2] |}.

(** The response for a shorter video: one window. *)
Definition brief : VideoPlayer.PredictionProp :=
  VideoPlayer.Continuous
    {| VideoPlayer.video_duration := 8;
       VideoPlayer.num_predictions := 1;
       VideoPlayer.predictions := [other0] |}.


End Rerun.

(** * Properties *)

(** ** Arithmetic of [Math.floor] and of the segment index *)

Lemma Qfloor_unique (x : Q) (k : Z) :
  Qfloor x = k <-> inject_Z k <= x /\ x < inject_Z k + 1.
Proof.
  split.
  - intros <-. split.
    + apply Qfloor_le.
    + generalize (Qlt_floor x). rewrite inject_Z_plus. trivial.
  - intros [Hlo Hhi].
    assert (Hle : (k <= Qfloor x)%Z).
    { rewrite <- (Qfloor_Z k). now apply Qfloor_resp_le. }
    assert (Hlt : (Qfloor x < k + 1)%Z).
    { rewrite Zlt_Qlt, inject_Z_plus.
      apply Qle_lt_trans with x; [apply Qfloor_le | exact Hhi]. }
    lia.
Qed.

Lemma segmentIndex_bounds (t : Q) (k : Z) :
  VideoPlayer.segmentIndex t = k <->
  10 * inject_Z k <= t /\ t < 10 * inject_Z k + 10.
Proof.
  unfold VideoPlayer.segmentIndex, JS.Math_floor.
  rewrite Qfloor_unique.
  assert (E : t / 10 == t * (1 # 10)) by (unfold Qdiv; reflexivity).
  rewrite E. split; intros [H1 H2]; split; lra.
Qed.

Lemma segmentIndex_nonneg (t : Q) : 0 <= t -> (0 <= VideoPlayer.segmentIndex t)%Z.
Proof.
  intros Ht.
  destruct (segmentIndex_bounds t (VideoPlayer.segmentIndex t)) as [H _].
  destruct (H eq_refl) as [_ Hhi].
  assert (Hq : -1 < inject_Z (VideoPlayer.segmentIndex t)) by lra.
  change (-1) with (inject_Z (-1)) in Hq.
  rewrite <- Zlt_Qlt in Hq. lia.
Qed.

Lemma index_in_range {A : Type} (arr : list A) (i : Z) :
  (0 <= i < Z.of_nat (List.length arr))%Z ->
  exists x, JS.index arr i = Some x /\ nth_error arr (Z.to_nat i) = Some x.
Proof.
  intros [Hlo Hhi]. unfold JS.index.
  destruct (Z.ltb_spec i 0) as [Hneg | _]; [lia |].
  destruct (nth_error arr (Z.to_nat i)) as [x |] eqn:E.
  - exists x. split; reflexivity.
  - apply nth_error_None in E. lia.
Qed.

Lemma segmentChanged_true (prediction : VideoPlayer.PredictionProp)
    (s : VideoPlayer.State) (t : Q) :
  VideoPlayer.segmentChanged prediction s t = true <->
  (VideoPlayer.segmentIndex t
     < Z.of_nat (List.length (VideoPlayer.predictionList prediction)))%Z
  /\ VideoPlayer.segmentIndex t <> VideoPlayer.currentSegment s.
Proof.
  unfold VideoPlayer.segmentChanged.
  rewrite andb_true_iff, negb_true_iff, Z.ltb_lt, Z.eqb_neq. reflexivity.
Qed.

(** A time update at a time that is not negative never throws. *)
Lemma handleTimeUpdate_normal (prediction : VideoPlayer.PredictionProp)
    (s : VideoPlayer.State) (t : Q) :
  0 <= t ->
  exists s', VideoPlayer.handleTimeUpdate prediction (Some t) s = VideoPlayer.Normal s'.
Proof.
  intros Ht. unfold VideoPlayer.handleTimeUpdate.
  destruct (VideoPlayer.segmentChanged prediction s t) eqn:G.
  - apply segmentChanged_true in G. destruct G as [Hlt _].
    destruct (index_in_range (VideoPlayer.predictionList prediction)
                (VideoPlayer.segmentIndex t)
                (conj (segmentIndex_nonneg t Ht) Hlt)) as [seg [Hidx _]].
    rewrite Hidx. eexists. reflexivity.
  - eexists. reflexivity.
Qed.

(** ** C1: the time-update handler follows 10-second segments *)

(** C1. For a playback time [t >= 0] the handler computes the segment index
    [floor(t / 10)], which is the one [k >= 0] with [10 k <= t < 10 k + 10];
    when that index is below the number of predictions and is not the
    current segment, the handler ends normally with the displayed
    prediction set to that segment's [top_prediction] and the current
    segment set to the index. *)
Theorem handleTimeUpdate_switches_segment
    (prediction : VideoPlayer.PredictionProp) (s : VideoPlayer.State) (t : Q) :
  0 <= t ->
  let i := VideoPlayer.segmentIndex t in
  let preds := VideoPlayer.predictionList prediction in
  i = Qfloor (t / 10)
  /\ (0 <= i)%Z
  /\ (forall k : Z, i = k <-> 10 * inject_Z k <= t /\ t < 10 * inject_Z k + 10)
  /\ ((i < Z.of_nat (List.length preds))%Z ->
      i <> VideoPlayer.currentSegment s ->
      exists seg,
        nth_error preds (Z.to_nat i) = Some seg
        /\ VideoPlayer.handleTimeUpdate prediction (Some t) s
           = VideoPlayer.Normal
               {| VideoPlayer.isPlaying := VideoPlayer.isPlaying s;
                  VideoPlayer.currentTime := t;
                  VideoPlayer.duration := VideoPlayer.duration s;
                  VideoPlayer.displayedPrediction := VideoPlayer.top_prediction seg;
                  VideoPlayer.currentSegment := i |}).
Proof.
  intros Ht i preds. subst i preds.
  split; [reflexivity |].
  split; [now apply segmentIndex_nonneg |].
  split; [intros k; apply segmentIndex_bounds |].
  intros Hlt Hne.
  destruct (index_in_range (VideoPlayer.predictionList prediction)
              (VideoPlayer.segmentIndex t)) as [seg [Hidx Hnth]].
  { split; [now apply segmentIndex_nonneg | exact Hlt]. }
  exists seg. split; [exact Hnth |].
  unfold VideoPlayer.handleTimeUpdate.
  assert (G : VideoPlayer.segmentChanged prediction s t = true)
    by (apply segmentChanged_true; split; assumption).
  rewrite G, Hidx. reflexivity.
Qed.

Lemma handleTimeUpdate_switches_segment_sample :
  0 <= 25 # 2
  /\ VideoPlayer.segmentIndex (25 # 2) = 1%Z
  /\ VideoPlayer.handleTimeUpdate Sample.prop (Some (25 # 2)) Sample.start
     = VideoPlayer.Normal
         {| VideoPlayer.isPlaying := false;
            VideoPlayer.currentTime := 25 # 2;
            VideoPlayer.duration := 0;
            VideoPlayer.displayedPrediction := Sample.arabesque;
            VideoPlayer.currentSegment := 1 |}.
Proof.
  assert (Ht : 0 <= 25 # 2) by (unfold Qle; simpl; lia).
  split; [exact Ht |].
  destruct (handleTimeUpdate_switches_segment Sample.prop Sample.start (25 # 2) Ht)
    as [_ [_ [_ H]]].
  split; [reflexivity |].
  destruct H as [seg [Hseg Hrun]].
  - simpl. vm_compute. reflexivity.
  - vm_compute. discriminate.
  - vm_compute in Hseg. injection Hseg as <-. exact Hrun.
Defined.

(** ** C2: every instant of the video has a prediction *)




(** ** C10: what a time update leaves alone *)

(** C10. Without a video element the handler does nothing.  A time update
    at [t >= 0] ends normally; it never touches
    [isPlaying] or [duration]; the displayed prediction and the current
    segment change only if the new index is below the number of predictions
    and differs from the current segment; from [t >= 10 * predictions.length]
    on both stay as they are; and an index below the current segment
    (rewinding) sets both to that earlier segment. *)
Theorem handleTimeUpdate_frame
    (prediction : VideoPlayer.PredictionProp) (s : VideoPlayer.State) (t : Q) :
  0 <= t ->
  let i := VideoPlayer.segmentIndex t in
  let preds := VideoPlayer.predictionList prediction in
  VideoPlayer.handleTimeUpdate prediction None s = VideoPlayer.Normal s
  /\ exists s',
       VideoPlayer.handleTimeUpdate prediction (Some t) s = VideoPlayer.Normal s'
       /\ VideoPlayer.isPlaying s' = VideoPlayer.isPlaying s
       /\ VideoPlayer.duration s' = VideoPlayer.duration s
       /\ (VideoPlayer.displayedPrediction s' <> VideoPlayer.displayedPrediction s
           \/ VideoPlayer.currentSegment s' <> VideoPlayer.currentSegment s ->
           (i < Z.of_nat (List.length preds))%Z
           /\ i <> VideoPlayer.currentSegment s)
       /\ (10 * inject_Z (Z.of_nat (List.length preds)) <= t ->
           VideoPlayer.displayedPrediction s' = VideoPlayer.displayedPrediction s
           /\ VideoPlayer.currentSegment s' = VideoPlayer.currentSegment s)
       /\ ((i < VideoPlayer.currentSegment s)%Z ->
           (i < Z.of_nat (List.length preds))%Z ->
           VideoPlayer.currentSegment s' = i
           /\ exists seg,
                nth_error preds (Z.to_nat i) = Some seg
                /\ VideoPlayer.displayedPrediction s'
                   = VideoPlayer.top_prediction seg).
Proof.
  intros Ht i preds. subst i preds.
  pose proof (segmentIndex_nonneg t Ht) as Hnn.
  assert (Hfar : 10 * inject_Z (Z.of_nat
                   (List.length (VideoPlayer.predictionList prediction))) <= t ->
                 (Z.of_nat (List.length (VideoPlayer.predictionList prediction))
                  <= VideoPlayer.segmentIndex t)%Z).
  { intros Hfar.
    destruct (segmentIndex_bounds t (VideoPlayer.segmentIndex t)) as [B _].
    destruct (B eq_refl) as [_ Bhi].
    assert (Hq : inject_Z (Z.of_nat
                   (List.length (VideoPlayer.predictionList prediction)))
                 < inject_Z (VideoPlayer.segmentIndex t + 1)).
    { rewrite inject_Z_plus. change (inject_Z 1) with 1. lra. }
    rewrite <- Zlt_Qlt in Hq. lia. }
  split; [reflexivity |].
  unfold VideoPlayer.handleTimeUpdate.
  destruct (VideoPlayer.segmentChanged prediction s t) eqn:G.
  - apply segmentChanged_true in G. destruct G as [Hlt Hne].
    destruct (index_in_range (VideoPlayer.predictionList prediction)
                (VideoPlayer.segmentIndex t) (conj Hnn Hlt)) as [seg [Hidx Hnth]].
    rewrite Hidx. eexists. split; [reflexivity |]. simpl.
    split; [reflexivity |]. split; [reflexivity |].
    split; [intros _; split; assumption |].
    split; [intros Hbeyond; apply Hfar in Hbeyond; lia |].
    intros _ _. split; [reflexivity |].
    exists seg. split; [exact Hnth | reflexivity].
  - assert (G' : ~ ((VideoPlayer.segmentIndex t
                     < Z.of_nat (List.length (VideoPlayer.predictionList prediction)))%Z
                    /\ VideoPlayer.segmentIndex t <> VideoPlayer.currentSegment s)).
    { rewrite <- segmentChanged_true, G. discriminate. }
    eexists. split; [reflexivity |]. simpl.
    split; [reflexivity |]. split; [reflexivity |].
    split; [intros [H | H]; congruence |].
    split; [intros _; split; reflexivity |].
    intros Hback Hlt. exfalso. apply G'. split; [assumption | lia].
Qed.

Lemma handleTimeUpdate_frame_sample :
  0 <= 5
  /\ VideoPlayer.handleTimeUpdate Sample.prop (Some 5) Sample.late
     = VideoPlayer.Normal
         {| VideoPlayer.isPlaying := true;
            VideoPlayer.currentTime := 5;
            VideoPlayer.duration := 25;
            VideoPlayer.displayedPrediction := Sample.pirouette;
            VideoPlayer.currentSegment := 0 |}
  /\ exists s',
       VideoPlayer.handleTimeUpdate Sample.prop (Some 30) Sample.late
       = VideoPlayer.Normal s'
       /\ VideoPlayer.displayedPrediction s' = Sample.attitude
       /\ VideoPlayer.currentSegment s' = 2%Z.
Proof.
  assert (H5 : 0 <= 5) by (unfold Qle; simpl; lia).
  assert (H30 : 0 <= 30) by (unfold Qle; simpl; lia).
  split; [exact H5 |].
  split; [reflexivity |].
  destruct (handleTimeUpdate_frame Sample.prop Sample.late 30 H30)
    as [_ [s' [Hrun [_ [_ [_ [Hfar _]]]]]]].
  exists s'. split; [exact Hrun |].
  apply Hfar. unfold Qle; simpl; lia.
Defined.

(** ** C9: the first render needs a first prediction *)

(** C9. A single result is wrapped into a one-element list, so the first
    render reads its [top_prediction]; for a continuous response the first
    render throws exactly when [predictions] is empty, and with at least one
    prediction it starts on the first one, at segment 0.  A response that
    honours the minimum of one window is in the second case. *)
Theorem initState_needs_first_prediction :
  (forall r,
      VideoPlayer.predictionList (VideoPlayer.Single r) = [r]
      /\ VideoPlayer.initState (VideoPlayer.Single r)
         = VideoPlayer.Normal
             {| VideoPlayer.isPlaying := false;
                VideoPlayer.currentTime := 0;
                VideoPlayer.duration := 0;
                VideoPlayer.displayedPrediction := VideoPlayer.top_prediction r;
                VideoPlayer.currentSegment := 0 |})
  /\ (forall c,
         VideoPlayer.initState (VideoPlayer.Continuous c) = VideoPlayer.Throw
         <-> VideoPlayer.predictions c = [])
  /\ (forall c,
         (1 <= List.length (VideoPlayer.predictions c))%nat
         <-> exists first s,
               nth_error (VideoPlayer.predictions c) 0 = Some first
               /\ VideoPlayer.initState (VideoPlayer.Continuous c)
                  = VideoPlayer.Normal s
               /\ VideoPlayer.displayedPrediction s
                  = VideoPlayer.top_prediction first
               /\ VideoPlayer.currentSegment s = 0%Z)
  /\ (forall c,
         Z.of_nat (List.length (VideoPlayer.predictions c))
           = VideoPlayer.num_predictions c ->
         VideoPlayer.num_predictions c
           = Z.max 1 (Qceiling (VideoPlayer.video_duration c / 10)) ->
         exists s,
           VideoPlayer.initState (VideoPlayer.Continuous c) = VideoPlayer.Normal s).
Proof.
  split; [intros r; split; reflexivity |].
  split.
  { intros [d n ps]. unfold VideoPlayer.initState. simpl.
    destruct ps as [| first rest]; simpl.
    - split; reflexivity.
    - split; discriminate. }
  split.
  { intros [d n ps]. unfold VideoPlayer.initState. simpl.
    destruct ps as [| first rest]; simpl.
    - split; [lia |]. intros [first [s [H _]]]. discriminate.
    - split; [| lia]. intros _. eexists. eexists.
      split; [reflexivity |]. split; [reflexivity |]. split; reflexivity. }
  intros [d n ps]. unfold VideoPlayer.initState. simpl. intros Hlen Hnum.
  destruct ps as [| first rest]; simpl in *.
  - exfalso. lia.
  - eexists. reflexivity.
Qed.

Lemma initState_needs_first_prediction_sample :
  VideoPlayer.initState Sample.prop = VideoPlayer.Normal Sample.start
  /\ VideoPlayer.initState
       (VideoPlayer.Continuous
          {| VideoPlayer.video_duration := 0;
             VideoPlayer.num_predictions := 0;
             VideoPlayer.predictions := [] |})
     = VideoPlayer.Throw.
Proof.
  destruct initState_needs_first_prediction as [_ [Hempty _]].
  split; [reflexivity |].
  apply Hempty. reflexivity.
Defined.

(** ** C7: at most five rows *)

Lemma length_mapi_from {A B : Type} (f : A -> nat -> B) (l : list A) (i : nat) :
  List.length (JS.mapi_from f i l) = List.length l.
Proof.
  revert i. induction l as [| x rest IH]; intros i; simpl.
  - reflexivity.
  - now rewrite IH.
Qed.

Lemma map_mapi_from {A B C : Type} (f : A -> nat -> B) (g : B -> C) (h : A -> C) :
  (forall x i, g (f x i) = h x) ->
  forall (l : list A) (i : nat), map g (JS.mapi_from f i l) = map h l.
Proof.
  intros Hgf. induction l as [| x rest IH]; intros i; simpl.
  - reflexivity.
  - now rewrite Hgf, IH.
Qed.

Lemma map_rank_mapi_from {A B : Type} (f : A -> nat -> B) (g : B -> nat) :
  (forall x i, g (f x i) = (i + 1)%nat) ->
  forall (l : list A) (i : nat),
    map g (JS.mapi_from f i l) = seq (i + 1) (List.length l).
Proof.
  intros Hgf. induction l as [| x rest IH]; intros i; simpl.
  - reflexivity.
  - rewrite Hgf, IH. simpl. reflexivity.
Qed.

(** What the rows of the player are made of, column by column. *)
Lemma top5Rows_columns (toS : Q -> string)
    (prediction : VideoPlayer.PredictionProp) (s : VideoPlayer.State)
    (seg : VideoPlayer.PredictionResult) (first : Prediction) (rest : list Prediction) :
  JS.index (VideoPlayer.predictionList prediction) (VideoPlayer.currentSegment s)
    = Some seg ->
  VideoPlayer.top5_predictions seg = first :: rest ->
  let shown := firstn 5 (VideoPlayer.top5_predictions seg) in
  let rows := VideoPlayer.top5Rows toS prediction s in
  map VideoPlayer.key rows = map action_id shown
  /\ map VideoPlayer.name rows = map action_name shown
  /\ map VideoPlayer.confidenceText rows
     = map (fun p => JS.toFixed toS 2 (confidence p)) shown
  /\ map VideoPlayer.width rows = map (VideoPlayer.barWidth first) shown
  /\ map VideoPlayer.rank rows = seq 1 (List.length shown).
Proof.
  intros Hidx Htop shown rows. subst shown rows.
  unfold VideoPlayer.top5Rows. rewrite Hidx, Htop.
  unfold JS.mapi, JS.slice0.
  repeat split; try (apply map_mapi_from; reflexivity).
  apply (map_rank_mapi_from _ VideoPlayer.rank). reflexivity.
Qed.

(** C7. For a displayed segment the player renders the entries of
    [top5_predictions.slice(0, 5)], in order: the number of rows is
    [min(5, top5_predictions.length)] and the rows carry the names of the
    first entries of the list.  When the current segment has no prediction
    nothing is rendered. *)
Theorem top5Rows_at_most_five (toS : Q -> string)
    (prediction : VideoPlayer.PredictionProp) (s : VideoPlayer.State) :
  match JS.index (VideoPlayer.predictionList prediction)
                 (VideoPlayer.currentSegment s) with
  | Some seg =>
      List.length (VideoPlayer.top5Rows toS prediction s)
        = Nat.min 5 (List.length (VideoPlayer.top5_predictions seg))
      /\ map VideoPlayer.name (VideoPlayer.top5Rows toS prediction s)
         = map action_name (firstn 5 (VideoPlayer.top5_predictions seg))
      /\ map VideoPlayer.key (VideoPlayer.top5Rows toS prediction s)
         = map action_id (firstn 5 (VideoPlayer.top5_predictions seg))
  | None => VideoPlayer.top5Rows toS prediction s = []
  end.
Proof.
  destruct (JS.index (VideoPlayer.predictionList prediction)
                     (VideoPlayer.currentSegment s)) as [seg |] eqn:Hidx.
  - destruct (VideoPlayer.top5_predictions seg) as [| first rest] eqn:Htop.
    + unfold VideoPlayer.top5Rows. rewrite Hidx, Htop. simpl.
      repeat split; reflexivity.
    + destruct (top5Rows_columns toS prediction s seg first rest Hidx Htop)
        as [Hkey [Hname _]].
      rewrite Htop in Hkey, Hname.
      split; [| split; assumption].
      unfold VideoPlayer.top5Rows. rewrite Hidx, Htop.
      unfold JS.mapi, JS.slice0. rewrite length_mapi_from.
      apply length_firstn.
  - unfold VideoPlayer.top5Rows. now rewrite Hidx.
Qed.

Lemma top5Rows_at_most_five_sample :
  List.length
    (VideoPlayer.top5Rows (fun _ => "1e+21"%string)
       (VideoPlayer.Single Sample.crowded) Sample.start) = 5%nat
  /\ map VideoPlayer.name
        (VideoPlayer.top5Rows (fun _ => "1e+21"%string)
           (VideoPlayer.Single Sample.crowded) Sample.start)
     = ["Pirouette"; "Arabesque"; "Attitude"; "Attitude"; "Arabesque"]%string
  /\ List.length
       (VideoPlayer.top5Rows (fun _ => "1e+21"%string) Sample.prop Sample.late)
     = 2%nat.
Proof.
  pose proof (top5Rows_at_most_five (fun _ => "1e+21"%string)
                (VideoPlayer.Single Sample.crowded) Sample.start) as H7.
  pose proof (top5Rows_at_most_five (fun _ => "1e+21"%string)
                Sample.prop Sample.late) as H2.
  cbn [JS.index VideoPlayer.predictionList VideoPlayer.currentSegment
       Sample.start Sample.late Sample.prop Sample.timeline
       VideoPlayer.predictions Z.ltb Z.compare Z.to_nat nth_error
       Pos.to_nat Pos.iter_op Nat.add] in H7, H2.
  destruct H7 as [Hlen [Hnames _]]. destruct H2 as [Hlen2 _].
  split; [exact Hlen |]. split; [exact Hnames | exact Hlen2].
Defined.

(** ** C6: confidences are shown as received *)

Lemma initState_showsCurrentSegment (prediction : VideoPlayer.PredictionProp)
    (s : VideoPlayer.State) :
  VideoPlayer.initState prediction = VideoPlayer.Normal s ->
  VideoPlayer.showsCurrentSegment prediction s.
Proof.
  unfold VideoPlayer.initState.
  destruct (JS.index (VideoPlayer.predictionList prediction) 0) as [first |] eqn:E;
    [| discriminate].
  intros H. injection H as <-. exists first. split; [exact E | reflexivity].
Qed.

Lemma handleTimeUpdate_showsCurrentSegment
    (prediction : VideoPlayer.PredictionProp) (video : option Q)
    (s s' : VideoPlayer.State) :
  VideoPlayer.showsCurrentSegment prediction s ->
  VideoPlayer.handleTimeUpdate prediction video s = VideoPlayer.Normal s' ->
  VideoPlayer.showsCurrentSegment prediction s'.
Proof.
  intros Hinv. unfold VideoPlayer.handleTimeUpdate.
  destruct video as [t |]; [| intros H; injection H as <-; exact Hinv].
  destruct (VideoPlayer.segmentChanged prediction s t).
  - destruct (JS.index (VideoPlayer.predictionList prediction)
                (VideoPlayer.segmentIndex t)) as [seg |] eqn:E; [| discriminate].
    intros H. injection H as <-. exists seg. split; [exact E | reflexivity].
  - intros H. injection H as <-. exact Hinv.
Qed.

Lemma play_showsCurrentSegment (prediction : VideoPlayer.PredictionProp)
    (times : list Q) :
  forall s : VideoPlayer.State,
    VideoPlayer.showsCurrentSegment prediction s ->
    Forall (Qle 0) times ->
    exists s',
      VideoPlayer.play prediction times s = VideoPlayer.Normal s'
      /\ VideoPlayer.showsCurrentSegment prediction s'.
Proof.
  induction times as [| t later IH]; intros s Hinv Hpos;
    cbn [VideoPlayer.play].
  - exists s. split; [reflexivity | exact Hinv].
  - inversion Hpos as [| ? ? Ht Hlater]; subst.
    destruct (handleTimeUpdate_normal prediction s t Ht) as [s1 Hrun].
    rewrite Hrun. apply IH; [| exact Hlater].
    now apply (handleTimeUpdate_showsCurrentSegment prediction (Some t) s s1).
Qed.

(** C6. Both components hand the [confidence] of the response to
    [toFixed(2)] as it is: the line under the headline is [toFixed(2)] of the
    displayed prediction's confidence, which after the first render and any
    series of time updates is the [top_prediction] of the current segment of
    the response; each row of the top-5 list shows [toFixed(2)] of its own
    entry's confidence; and [toFixed(2)] itself keeps values outside
    [0, 1] (7.5 is shown as 7.50, -0.25 as -0.25). *)
Theorem confidence_shown_unscaled (toS : Q -> string) :
  (forall prediction s,
      VideoPlayer.confidenceLine (VideoPlayer.render toS prediction s)
      = JS.toFixed toS 2 (confidence (VideoPlayer.displayedPrediction s)))
  /\ (forall prediction times s0,
         VideoPlayer.initState prediction = VideoPlayer.Normal s0 ->
         Forall (Qle 0) times ->
         exists s seg,
           VideoPlayer.play prediction times s0 = VideoPlayer.Normal s
           /\ JS.index (VideoPlayer.predictionList prediction)
                       (VideoPlayer.currentSegment s) = Some seg
           /\ VideoPlayer.confidenceLine (VideoPlayer.render toS prediction s)
              = JS.toFixed toS 2 (confidence (VideoPlayer.top_prediction seg)))
  /\ (forall prediction s seg,
         JS.index (VideoPlayer.predictionList prediction)
                  (VideoPlayer.currentSegment s) = Some seg ->
         map VideoPlayer.confidenceText
             (VideoPlayer.rows (VideoPlayer.render toS prediction s))
         = map (fun p => JS.toFixed toS 2 (confidence p))
               (firstn 5 (VideoPlayer.top5_predictions seg)))
  /\ (forall prediction,
         PredictionDisplay.confidenceLine (PredictionDisplay.render toS prediction)
         = JS.toFixed toS 2
             (confidence (PredictionDisplay.top_prediction prediction))
         /\ map PredictionDisplay.confidenceText
                (PredictionDisplay.rows (PredictionDisplay.render toS prediction))
            = map (fun p => JS.toFixed toS 2 (confidence p))
                  (PredictionDisplay.top5_predictions prediction))
  /\ JS.toFixed toS 2 (15 # 2) = "7.50"%string
  /\ JS.toFixed toS 2 (- (1 # 4)) = "-0.25"%string
  /\ JS.toFixed toS 2 (914 # 1000) = "0.91"%string.
Proof.
  split; [reflexivity |].
  split.
  { intros prediction times s0 Hinit Hpos.
    destruct (play_showsCurrentSegment prediction times s0
                (initState_showsCurrentSegment prediction s0 Hinit) Hpos)
      as [s [Hplay [seg [Hidx Hshown]]]].
    exists s, seg. split; [exact Hplay |]. split; [exact Hidx |].
    simpl. now rewrite Hshown. }
  split.
  { intros prediction s seg Hidx. simpl.
    destruct (VideoPlayer.top5_predictions seg) as [| first rest] eqn:Htop.
    - unfold VideoPlayer.top5Rows. rewrite Hidx, Htop. reflexivity.
    - destruct (top5Rows_columns toS prediction s seg first rest Hidx Htop)
        as [_ [_ [Htext _]]].
      rewrite Htop in Htext. exact Htext. }
  split.
  { intros prediction. split; [reflexivity |].
    simpl. unfold JS.mapi. apply map_mapi_from. reflexivity. }
  repeat split; reflexivity.
Qed.

Lemma confidence_shown_unscaled_sample :
  exists s,
    VideoPlayer.play Sample.prop [3; 12 # 1; 47 # 2; 14] Sample.start
    = VideoPlayer.Normal s
    /\ VideoPlayer.currentSegment s = 1%Z
    /\ VideoPlayer.confidenceLine
         (VideoPlayer.render (fun _ => "1e+21"%string) Sample.prop s)
       = "0.60"%string
    /\ map VideoPlayer.confidenceText
           (VideoPlayer.rows
              (VideoPlayer.render (fun _ => "1e+21"%string) Sample.prop s))
       = ["0.60"%string; "0.30"%string].
Proof.
  destruct (confidence_shown_unscaled (fun _ => "1e+21"%string))
    as [_ [Hplay _]].
  destruct (Hplay Sample.prop [3; 12 # 1; 47 # 2; 14] Sample.start eq_refl)
    as [s [seg [Hrun [Hidx Hline]]]].
  { repeat constructor; unfold Qle; simpl; lia. }
  exists s. split; [exact Hrun |].
  vm_compute in Hrun. injection Hrun as <-.
  repeat split; reflexivity.
Defined.

(** ** C8: the two bar-width rules *)

Lemma fold_Qmax_bounded (l : list Q) :
  forall a b : Q, a == b -> Forall (fun x => x <= b) l -> fold_left Qmax l a == b.
Proof.
  induction l as [| x rest IH]; intros a b Hab Hall; simpl.
  - exact Hab.
  - inversion Hall as [| ? ? Hx Hrest]; subst.
    apply IH; [| exact Hrest].
    rewrite Hab. now apply Q.max_l.
Qed.

Lemma ordered_first_is_max (first : Prediction) (rest : list Prediction) :
  Sorted Ranking.before (first :: rest) ->
  Forall (fun x => x <= confidence first) (map confidence rest).
Proof.
  intros Hsorted.
  apply Sorted_StronglySorted in Hsorted.
  - apply StronglySorted_inv in Hsorted. destruct Hsorted as [_ Hall].
    apply Forall_map. exact Hall.
  - intros a b c Hab Hbc. unfold Ranking.before in *.
    now apply Qle_trans with (confidence b).
Qed.

Lemma div_positive (c m : Q) :
  0 < m -> JS.div (JS.Fin c) (JS.Fin m) = JS.Fin (c / m).
Proof.
  intros Hm. unfold JS.div.
  destruct (Qeq_bool m 0) eqn:E; [| reflexivity].
  apply Qeq_bool_iff in E. rewrite E in Hm. discriminate.
Qed.

Lemma share_in_range (c m : Q) :
  0 < m -> 0 <= c -> c <= m -> 0 <= c / m * 100 /\ c / m * 100 <= 100.
Proof.
  intros Hm Hc Hcm.
  assert (H0 : 0 <= c / m).
  { apply Qle_shift_div_l; [exact Hm | lra]. }
  assert (H1 : c / m <= 1).
  { apply Qle_shift_div_r; [exact Hm | lra]. }
  split; lra.
Qed.

(** C8. For a top-5 list that is ordered (scores non-increasing and
    non-negative, the first one positive): [Math.max] over its confidences is
    the first confidence; for every entry the width the player computes
    (over the first confidence) and the width the single-result display
    computes (over the maximum) are the same finite number, between 0 and
    100.  The rows of the two views carry exactly these widths.  Without the
    ordering the player's rule can pass 100 (a first score of 0.1 and an
    entry of 0.9 give 900) and divides by a first score of zero (giving
    [Infinity], or [NaN] for a zero entry), where the display's rule stays at
    100 or below. *)
Theorem barWidth_rules_agree (toS : Q -> string) :
  (forall first rest,
      Ranking.ordered (first :: rest) ->
      (exists m,
          JS.Math_max (map confidence (first :: rest)) = JS.Fin m
          /\ m == confidence first)
      /\ forall p,
           In p (first :: rest) ->
           exists w v,
             VideoPlayer.barWidth first p = JS.Fin w
             /\ PredictionDisplay.barWidth
                  (JS.Math_max (map confidence (first :: rest))) p = JS.Fin v
             /\ w == v /\ 0 <= w /\ w <= 100)
  /\ (forall prediction s seg first rest,
         JS.index (VideoPlayer.predictionList prediction)
                  (VideoPlayer.currentSegment s) = Some seg ->
         VideoPlayer.top5_predictions seg = first :: rest ->
         map VideoPlayer.width (VideoPlayer.rows (VideoPlayer.render toS prediction s))
         = map (VideoPlayer.barWidth first) (firstn 5 (first :: rest)))
  /\ (forall prediction,
         map PredictionDisplay.width
             (PredictionDisplay.rows (PredictionDisplay.render toS prediction))
         = map (PredictionDisplay.barWidth
                  (JS.Math_max
                     (map confidence (PredictionDisplay.top5_predictions prediction))))
               (PredictionDisplay.top5_predictions prediction))
  /\ JS.same (VideoPlayer.barWidth Sample.faint Sample.pirouette) (JS.Fin 900)
  /\ JS.same (PredictionDisplay.barWidth
                (JS.Math_max (map confidence [Sample.faint; Sample.pirouette]))
                Sample.pirouette)
             (JS.Fin 100)
  /\ VideoPlayer.barWidth Sample.none Sample.pirouette = JS.Infinity
  /\ VideoPlayer.barWidth Sample.none Sample.none = JS.NaN.
Proof.
  split.
  { intros first rest [Hsorted [Hnonneg Hpos]].
    assert (Hmax : fold_left Qmax (map confidence rest) (confidence first)
                   == confidence first).
    { apply fold_Qmax_bounded; [reflexivity |].
      now apply ordered_first_is_max. }
    split.
    { eexists. split; [reflexivity | exact Hmax]. }
    intros p Hin.
    assert (Hp0 : 0 <= confidence p).
    { rewrite Forall_forall in Hnonneg. now apply Hnonneg. }
    assert (Hp1 : confidence p <= confidence first).
    { destruct Hin as [<- | Hin]; [apply Qle_refl |].
      pose proof (ordered_first_is_max first rest Hsorted) as Hall.
      rewrite Forall_forall in Hall. apply Hall. now apply in_map. }
    assert (Hpos' : 0 < fold_left Qmax (map confidence rest) (confidence first))
      by (rewrite Hmax; exact Hpos).
    unfold VideoPlayer.barWidth, PredictionDisplay.barWidth.
    simpl JS.Math_max.
    rewrite (div_positive _ _ Hpos), (div_positive _ _ Hpos').
    simpl JS.mul.
    eexists. eexists. split; [reflexivity |]. split; [reflexivity |].
    split; [now rewrite Hmax |].
    now apply share_in_range. }
  split.
  { intros prediction s seg first rest Hidx Htop. simpl.
    destruct (top5Rows_columns toS prediction s seg first rest Hidx Htop)
      as [_ [_ [_ [Hwidth _]]]].
    rewrite Htop in Hwidth. exact Hwidth. }
  split.
  { intros prediction. simpl. unfold JS.mapi.
    apply map_mapi_from. reflexivity. }
  split; [vm_compute; reflexivity |].
  split; [vm_compute; reflexivity |].
  split; reflexivity.
Qed.

Lemma barWidth_rules_agree_sample :
  Ranking.ordered [Sample.pirouette; Sample.arabesque; Sample.attitude]
  /\ JS.Math_max
       (map confidence [Sample.pirouette; Sample.arabesque; Sample.attitude])
     = JS.Fin (9 # 10)
  /\ exists w v,
       VideoPlayer.barWidth Sample.pirouette Sample.arabesque = JS.Fin w
       /\ PredictionDisplay.barWidth
            (JS.Math_max
               (map confidence [Sample.pirouette; Sample.arabesque; Sample.attitude]))
            Sample.arabesque = JS.Fin v
       /\ w == v /\ 0 <= w /\ w <= 100.
Proof.
  assert (Hord : Ranking.ordered
                   [Sample.pirouette; Sample.arabesque; Sample.attitude]).
  { split; [| split].
    - repeat constructor; unfold Ranking.before; simpl; unfold Qle; simpl; lia.
    - repeat constructor; simpl; unfold Qle; simpl; lia.
    - reflexivity. }
  split; [exact Hord |].
  split; [reflexivity |].
  destruct (barWidth_rules_agree (fun _ => "1e+21"%string)) as [H _].
  destruct (H Sample.pirouette [Sample.arabesque; Sample.attitude] Hord)
    as [_ Hall].
  apply Hall. simpl. right. left. reflexivity.
Defined.

(** ** VideoUpload *)

Section ProcessVideoFacts.

Import VideoUpload.
Local Open Scope string_scope.

Variable Json : Type.
Variable detail : Json -> Settled (option string).

Lemma or_else_nonempty (a b : string) : b <> "" -> JS.or_else a b <> "".
Proof. intros Hb. destruct a; simpl; [exact Hb | discriminate]. Qed.

(** What one call leaves in the cells, for a failure and for a success. *)
Lemma processVideoWithModel_failure (file : File) (modelType message : string)
    (outcome : Settled (Response Json)) (s : State Json) :
  tryBody detail outcome = inr message ->
  let errorMsg := JS.or_else message "Failed to process video" in
  processVideoWithModel detail file modelType outcome
  = [SetLoading true; SetError None; SetUploadError None;
     Fetch (predictUrl modelType) "POST" file;
     SetUploadError (Some errorMsg); SetError (Some errorMsg);
     SetLoading false].
Proof.
  intros Hbody. unfold processVideoWithModel, processVideoWithModel_resume.
  rewrite Hbody. reflexivity.
Qed.

Lemma processVideoWithModel_success (file : File) (modelType : string)
    (result : Json) (outcome : Settled (Response Json)) :
  tryBody detail outcome = inl result ->
  processVideoWithModel detail file modelType outcome
  = [SetLoading true; SetError None; SetUploadError None;
     Fetch (predictUrl modelType) "POST" file;
     OnPredictFromVideo result file;
     SetLoading false].
Proof.
  intros Hbody. unfold processVideoWithModel, processVideoWithModel_resume.
  rewrite Hbody. reflexivity.
Qed.

Lemma tryBody_failed (outcome : Settled (Response Json)) :
  failed outcome = true -> exists message, tryBody detail outcome = inr message.
Proof.
  destruct outcome as [[[|] [body | m]] | m]; simpl; intros H;
    try discriminate; try (eexists; reflexivity).
  destruct (detail body) as [[d |] | m]; eexists; reflexivity.
Qed.

Lemma tryBody_succeeded (outcome : Settled (Response Json)) :
  failed outcome = false ->
  exists result,
    outcome = Resolved {| ok := true; json := Resolved result |}
    /\ tryBody detail outcome = inl result.
Proof.
  destruct outcome as [[[|] [body | m]] | m]; simpl; intros H;
    try discriminate.
  exists body. split; reflexivity.
Qed.

(** C5. Whatever the request's fate, a call of [processVideoWithModel] ends
    with [setLoading(false)] and leaves [loading] false.  When the request
    fails (fetch throws, the response is not ok, or its body cannot be
    read) [onPredictFromVideo] is not among the calls, the page's
    prediction and video file are what they were, and one non-empty
    message is given to both [setUploadError] and [setError].  Otherwise
    the callback gets the parsed body and the file, and no error is set. *)
Theorem failed_request_delivers_nothing (file : File) (modelType : string)
    (outcome : Settled (Response Json)) (s : State Json) :
  let effects := processVideoWithModel detail file modelType outcome in
  last effects (SetLoading true) = SetLoading false
  /\ loading (applyAll s effects) = false
  /\ if failed outcome then
       existsb isCallback effects = false
       /\ prediction (applyAll s effects) = prediction s
       /\ uploadedVideoFile (applyAll s effects) = uploadedVideoFile s
       /\ exists errorMsg,
            errorMsg <> ""
            /\ In (SetError (Some errorMsg)) effects
            /\ In (SetUploadError (Some errorMsg)) effects
            /\ error (applyAll s effects) = Some errorMsg
            /\ uploadError (applyAll s effects) = Some errorMsg
     else
       exists result,
         outcome = Resolved {| ok := true; json := Resolved result |}
         /\ In (OnPredictFromVideo result file) effects
         /\ prediction (applyAll s effects) = Some result
         /\ uploadedVideoFile (applyAll s effects) = Some file
         /\ error (applyAll s effects) = None
         /\ uploadError (applyAll s effects) = None.
Proof.
  intros effects. subst effects.
  destruct (failed outcome) eqn:F.
  - destruct (tryBody_failed outcome F) as [message Hbody].
    rewrite (processVideoWithModel_failure file modelType message outcome s Hbody).
    split; [reflexivity |]. split; [reflexivity |].
    split; [reflexivity |]. split; [reflexivity |]. split; [reflexivity |].
    exists (JS.or_else message "Failed to process video").
    split; [apply or_else_nonempty; discriminate |].
    split; [simpl; tauto |]. split; [simpl; tauto |].
    split; reflexivity.
  - destruct (tryBody_succeeded outcome F) as [result [Hout Hbody]].
    rewrite (processVideoWithModel_success file modelType result outcome Hbody).
    split; [reflexivity |]. split; [reflexivity |].
    exists result. split; [exact Hout |].
    split; [simpl; tauto |].
    repeat split; reflexivity.
Qed.

End ProcessVideoFacts.

Section ExtensionFacts.

Import VideoUpload.
Local Open Scope string_scope.

Variable Json : Type.
Variable toLowerCase : string -> string.

(** *** The extension check *)

Lemma length_append (a b : string) :
  String.length (a ++ b) = (String.length a + String.length b)%nat.
Proof. induction a as [| c a IH]; simpl; [reflexivity | now rewrite IH]. Qed.

Lemma drop_append (a b : string) : JS.drop (String.length a) (a ++ b) = b.
Proof. induction a as [| c a IH]; simpl; [reflexivity | exact IH]. Qed.

Lemma lastIndexOf_from_absent (c : ascii) (s : string) :
  JS.occurs c s = false -> forall i, JS.lastIndexOf_from c s i = (-1)%Z.
Proof.
  induction s as [| a rest IH]; simpl; intros Hno i.
  - reflexivity.
  - apply orb_false_iff in Hno. destruct Hno as [Ha Hrest].
    rewrite (IH Hrest), Ha. reflexivity.
Qed.

Lemma lastIndexOf_from_last (c : ascii) (base ext : string) :
  JS.occurs c ext = false ->
  forall i, (0 <= i)%Z ->
    JS.lastIndexOf_from c (base ++ String c ext) i
    = (i + Z.of_nat (String.length base))%Z.
Proof.
  intros Hno. induction base as [| a base IH]; intros i Hi.
  - simpl. rewrite (lastIndexOf_from_absent c ext Hno), Ascii.eqb_refl.
    simpl. lia.
  - cbn [append JS.lastIndexOf_from String.length].
    rewrite IH by lia.
    destruct (Z.leb_spec 0 (i + 1 + Z.of_nat (String.length base))) as [_ | H];
      lia.
Qed.

(** [fileExt] is the part of the name from its last dot on, lowercased;
    a name without a dot is taken whole. *)
Lemma fileExt_final (file : File) (base ext : string) :
  name file = base ++ "." ++ ext ->
  JS.occurs "." ext = false ->
  fileExt toLowerCase file = toLowerCase ("." ++ ext).
Proof.
  intros Hname Hno. unfold fileExt, JS.lastIndexOf. rewrite Hname.
  change (base ++ "." ++ ext) with (base ++ String "." ext).
  rewrite (lastIndexOf_from_last "." base ext Hno 0%Z) by lia.
  unfold JS.substring_from. rewrite length_append.
  replace (Z.to_nat _) with (String.length base).
  - rewrite drop_append. reflexivity.
  - cbn [String.length]. lia.
Qed.

Lemma fileExt_no_dot (file : File) :
  JS.occurs "." (name file) = false ->
  fileExt toLowerCase file = toLowerCase (name file).
Proof.
  intros Hno. unfold fileExt, JS.lastIndexOf.
  rewrite (lastIndexOf_from_absent "." (name file) Hno 0%Z).
  unfold JS.substring_from.
  replace (Z.to_nat _) with 0%nat by lia. reflexivity.
Qed.

(** C4. For a file chosen in the dialog, [fileExt] is the lowercased part of
    its name from the last dot on (the whole name when it has no dot).  If it is not one of .mp4, .avi, .mov,
    .mkv, .webm the handler only sets the upload error: the stored file,
    the pending requests and the loading flag are what they were and no
    request is made.  If it is one of them the file is stored, its name is
    reported, and one POST to predict-continuous is made with the
    currently selected model and that file. *)
Theorem handleVideoUpload_checks_extension (file : File) (s : State Json) :
  let effects := handleVideoUpload toLowerCase (Some file) s in
  (forall base ext,
      name file = base ++ "." ++ ext ->
      JS.occurs "." ext = false ->
      fileExt toLowerCase file = toLowerCase ("." ++ ext))
  /\ (JS.occurs "." (name file) = false ->
      fileExt toLowerCase file = toLowerCase (name file))
  /\ (JS.includes allowedTypes (fileExt toLowerCase file) = true
      <-> In (fileExt toLowerCase file) [".mp4"; ".avi"; ".mov"; ".mkv"; ".webm"])
  /\ if JS.includes allowedTypes (fileExt toLowerCase file) then
       effects
       = [SetUploadError None; SetUploadedFile file; OnVideoSelect (name file);
          SetLoading true; SetError None; SetUploadError None;
          Fetch (predictUrl (selectedModel s)) "POST" file]
       /\ uploadedFile (applyAll s effects) = Some file
       /\ selectedVideo (applyAll s effects) = Some (name file)
       /\ requests effects = [(predictUrl (selectedModel s), file)]
       /\ pending (applyAll s effects) = (pending s ++ [file])%list
     else
       effects
       = [SetUploadError None;
          SetUploadError
            (Some "Please upload a video file (.mp4, .avi, .mov, .mkv, .webm)")]
       /\ uploadedFile (applyAll s effects) = uploadedFile s
       /\ uploadError (applyAll s effects)
          = Some "Please upload a video file (.mp4, .avi, .mov, .mkv, .webm)"
       /\ requests effects = []
       /\ pending (applyAll s effects) = pending s
       /\ loading (applyAll s effects) = loading s.
Proof.
  intros effects. subst effects.
  split; [intros base ext; apply fileExt_final |].
  split; [apply fileExt_no_dot |].
  split.
  { unfold JS.includes, allowedTypes. rewrite existsb_exists. split.
    - intros [x [Hin Heq]]. apply String.eqb_eq in Heq. now subst x.
    - intros Hin. exists (fileExt toLowerCase file).
      split; [exact Hin | apply String.eqb_refl]. }
  unfold handleVideoUpload.
  destruct (JS.includes allowedTypes (fileExt toLowerCase file)); simpl.
  - repeat split; reflexivity.
  - repeat split; reflexivity.
Qed.


End ExtensionFacts.

Section SessionFacts.

Import VideoUpload.
Local Open Scope string_scope.

Variable Json : Type.
Variable detail : Json -> Settled (option string).
Variable toLowerCase : string -> string.

(** *** Sessions *)

Lemma modelOf_known (b : ModelButton) : knownModel (modelOf b).
Proof. destruct b; [left | right]; reflexivity. Qed.

Lemma requests_app (a b : list (Effect Json)) :
  requests (a ++ b) = (requests a ++ requests b)%list.
Proof.
  induction a as [| e a IH]; simpl; [reflexivity |].
  destruct e; simpl; rewrite IH; reflexivity.
Qed.

Lemma snoc_not_nil {A : Type} (l : list A) (x : A) : (l ++ [x])%list <> [].
Proof. destruct l; discriminate. Qed.

Lemma begin_known (file : File) (m : string) :
  knownModel m ->
  knownRequests (processVideoWithModel_begin (Json := Json) file m).
Proof.
  intros Hm. unfold knownRequests. simpl.
  constructor; [| constructor]. exists m. split; [exact Hm | reflexivity].
Qed.

Lemma resume_no_request (file : File) (outcome : Settled (Response Json)) :
  requests (processVideoWithModel_resume detail file outcome) = [].
Proof.
  unfold processVideoWithModel_resume.
  destruct (tryBody detail outcome); reflexivity.
Qed.

(** One event keeps the session consistent and only makes known requests. *)
Lemma step_consistent (s : State Json) (ev : Event Json) :
  consistent s ->
  consistent (fst (step detail toLowerCase s ev))
  /\ knownRequests (snd (step detail toLowerCase s ev)).
Proof.
  intros Hs. pose proof Hs as [Hmodel Hload].
  destruct ev as [b | chosen | i outcome]; cbn [step].
  - unfold clickModel.
    destruct (loading s) eqn:L; [split; [exact Hs | constructor] |].
    destruct (modelOf b =? selectedModel s);
      [split; [exact Hs | constructor] |].
    unfold modelEffect. simpl.
    destruct (uploadedFile s) as [file |]; simpl.
    + split; [split |].
      * apply modelOf_known.
      * intros _. apply snoc_not_nil.
      * apply begin_known, modelOf_known.
    + split; [split |].
      * apply modelOf_known.
      * discriminate.
      * constructor.
  - destruct chosen as [file |]; unfold handleVideoUpload;
      [| split; [exact Hs | constructor]].
    destruct (JS.includes allowedTypes (fileExt toLowerCase file)); simpl.
    + split; [split |].
      * exact Hmodel.
      * intros _. apply snoc_not_nil.
      * apply begin_known, Hmodel.
    + split; [exact Hs | constructor].
  - destruct (take i (pending s)) as [[file rest] |]; simpl;
      [| split; [exact Hs | constructor]].
    split.
    + unfold processVideoWithModel_resume.
      destruct (tryBody detail outcome); simpl;
        (split; [exact Hmodel | discriminate]).
    + unfold knownRequests. rewrite resume_no_request. constructor.
Qed.

Lemma run_consistent (events : list (Event Json)) :
  forall s : State Json,
    consistent s ->
    consistent (fst (run detail toLowerCase s events))
    /\ knownRequests (snd (run detail toLowerCase s events)).
Proof.
  induction events as [| ev later IH]; intros s Hs; cbn [run].
  - split; [exact Hs | constructor].
  - destruct (step_consistent s ev Hs) as [H1 R1].
    destruct (step detail toLowerCase s ev) as [s1 effects1].
    cbn [fst snd] in H1, R1.
    destruct (IH s1 H1) as [H2 R2].
    destruct (run detail toLowerCase s1 later) as [s2 effects2].
    cbn [fst snd] in *.
    split; [exact H2 |].
    unfold knownRequests. rewrite requests_app. apply Forall_app.
    split; assumption.
Qed.

(** On the first render the effect of [selectedModel] runs and does nothing. *)
Lemma modelEffect_on_mount : modelEffect (initial Json) = [].
Proof. reflexivity. Qed.

Lemma initial_consistent : consistent (initial Json).
Proof. split; [left; reflexivity | discriminate]. Qed.

(** A change of model while a file is there and [loading] is off. *)
Lemma clickModel_resubmits (s : State Json) (b : ModelButton) (file : File) :
  uploadedFile s = Some file ->
  loading s = false ->
  modelOf b <> selectedModel s ->
  selectedModel (fst (step detail toLowerCase s (Click b))) = modelOf b
  /\ uploadedFile (fst (step detail toLowerCase s (Click b))) = Some file
  /\ snd (step detail toLowerCase s (Click b))
     = [SetLoading true; SetError None; SetUploadError None;
        Fetch (predictUrl (modelOf b)) "POST" file]
  /\ requests (snd (step detail toLowerCase s (Click b)))
     = [(predictUrl (modelOf b), file)].
Proof.
  intros Hfile Hload Hne. cbn [step]. unfold clickModel. rewrite Hload.
  apply String.eqb_neq in Hne. rewrite Hne.
  unfold modelEffect. simpl. rewrite Hfile. simpl.
  repeat split; reflexivity.
Qed.

(** C3. In any session started from the first render: every request goes
    to predict-continuous with [model_type] "gru" or "transformer" and the
    selected model is one of the two; no pending request means [loading]
    is off; and in that situation, with a file uploaded, a click that
    changes the model selects it and posts that same file again with the
    new identifier (nothing is kept from earlier results, so going back to
    a model asks the server again).  The same holds in any state in which
    [loading] is off. *)
Theorem model_change_resubmits (events : list (Event Json)) :
  let s := fst (run detail toLowerCase (initial Json) events) in
  let effects := snd (run detail toLowerCase (initial Json) events) in
  (forall url file,
      In (url, file) (requests effects) ->
      url = "http://localhost:8001/predict-continuous?model_type=gru"
      \/ url = "http://localhost:8001/predict-continuous?model_type=transformer")
  /\ (selectedModel s = "gru" \/ selectedModel s = "transformer")
  /\ (pending s = [] -> loading s = false)
  /\ (forall b file,
         uploadedFile s = Some file ->
         pending s = [] ->
         modelOf b <> selectedModel s ->
         selectedModel (fst (step detail toLowerCase s (Click b))) = modelOf b
         /\ snd (step detail toLowerCase s (Click b))
            = [SetLoading true; SetError None; SetUploadError None;
               Fetch (predictUrl (modelOf b)) "POST" file]
         /\ requests (snd (step detail toLowerCase s (Click b)))
            = [(predictUrl (modelOf b), file)])
  /\ (forall (s' : State Json) b file,
         uploadedFile s' = Some file ->
         loading s' = false ->
         modelOf b <> selectedModel s' ->
         selectedModel (fst (step detail toLowerCase s' (Click b))) = modelOf b
         /\ requests (snd (step detail toLowerCase s' (Click b)))
            = [(predictUrl (modelOf b), file)]).
Proof.
  intros s effects. subst s effects.
  destruct (run_consistent events (initial Json) initial_consistent)
    as [[Hmodel Hload] Hreq].
  assert (Hidle : pending (fst (run detail toLowerCase (initial Json) events)) = [] ->
                  loading (fst (run detail toLowerCase (initial Json) events)) = false).
  { intros Hpend.
    destruct (loading (fst (run detail toLowerCase (initial Json) events))) eqn:L;
      [| reflexivity].
    exfalso. now apply Hload. }
  split.
  { intros url file Hin. unfold knownRequests in Hreq.
    rewrite Forall_forall in Hreq.
    destruct (Hreq (url, file) Hin) as [m [[-> | ->] Hurl]];
      simpl in Hurl; [left | right]; exact Hurl. }
  split; [exact Hmodel |].
  split; [exact Hidle |].
  split.
  { intros b file Hfile Hpend Hne.
    destruct (clickModel_resubmits _ b file Hfile (Hidle Hpend) Hne)
      as [H1 [_ [H2 H3]]].
    repeat split; assumption. }
  intros s' b file Hfile Hload' Hne.
  destruct (clickModel_resubmits s' b file Hfile Hload' Hne)
    as [H1 [_ [_ H3]]].
  split; assumption.
Qed.


End SessionFacts.

(** ** The sample session, step by step *)

Lemma model_change_resubmits_sample :
  let s := fst (VideoUpload.run VideoUpload.sampleDetail JS.toLowerCase_ascii
                  (VideoUpload.initial string)
                  [VideoUpload.Change (Some VideoUpload.clip);
                   VideoUpload.Settle 0
                     (VideoUpload.Resolved VideoUpload.okResponse)]) in
  (VideoUpload.uploadedFile s = Some VideoUpload.clip
   /\ VideoUpload.pending s = []
   /\ VideoUpload.selectedModel s = "gru"%string)
  /\ VideoUpload.requests
       (snd (VideoUpload.step VideoUpload.sampleDetail JS.toLowerCase_ascii s
               (VideoUpload.Click VideoUpload.TransformerButton)))
     = [("http://localhost:8001/predict-continuous?model_type=transformer"%string,
         VideoUpload.clip)].
Proof.
  split; [repeat split; reflexivity |].
  destruct (model_change_resubmits string VideoUpload.sampleDetail
              JS.toLowerCase_ascii
              [VideoUpload.Change (Some VideoUpload.clip);
               VideoUpload.Settle 0 (VideoUpload.Resolved VideoUpload.okResponse)])
    as [_ [_ [_ [H _]]]].
  destruct (H VideoUpload.TransformerButton VideoUpload.clip) as [_ [_ Hreq]].
  - reflexivity.
  - reflexivity.
  - discriminate.
  - exact Hreq.
Defined.

Lemma handleVideoUpload_checks_extension_sample :
  VideoUpload.fileExt JS.toLowerCase_ascii VideoUpload.clip = ".mp4"%string
  /\ VideoUpload.requests
       (VideoUpload.handleVideoUpload JS.toLowerCase_ascii
          (Some VideoUpload.clip) (VideoUpload.initial string))
     = [("http://localhost:8001/predict-continuous?model_type=gru"%string,
         VideoUpload.clip)]
  /\ VideoUpload.fileExt JS.toLowerCase_ascii VideoUpload.notes = ".txt"%string
  /\ VideoUpload.requests
       (VideoUpload.handleVideoUpload JS.toLowerCase_ascii
          (Some VideoUpload.notes) (VideoUpload.initial string))
     = [].
Proof.
  destruct (handleVideoUpload_checks_extension string JS.toLowerCase_ascii
              VideoUpload.clip (VideoUpload.initial string)) as [Hext [_ [_ Hclip]]].
  destruct (handleVideoUpload_checks_extension string JS.toLowerCase_ascii
              VideoUpload.notes (VideoUpload.initial string)) as [_ [_ [_ Hnotes]]].
  split; [exact (Hext "swan.lake"%string "MP4"%string eq_refl eq_refl) |].
  split; [exact (proj1 (proj2 (proj2 (proj2 Hclip)))) |].
  split; [reflexivity |].
  exact (proj1 (proj2 (proj2 (proj2 Hnotes)))).
Defined.

Lemma failed_request_delivers_nothing_sample :
  VideoUpload.failed (VideoUpload.Resolved VideoUpload.errorResponse) = true
  /\ existsb VideoUpload.isCallback
       (VideoUpload.processVideoWithModel VideoUpload.sampleDetail
          VideoUpload.clip "gru"%string
          (VideoUpload.Resolved VideoUpload.errorResponse))
     = false
  /\ VideoUpload.error
       (VideoUpload.applyAll (VideoUpload.initial string)
          (VideoUpload.processVideoWithModel VideoUpload.sampleDetail
             VideoUpload.clip "gru"%string
             (VideoUpload.Resolved VideoUpload.errorResponse)))
     = Some "Invalid file type"%string.
Proof.
  split; [reflexivity |].
  destruct (failed_request_delivers_nothing string VideoUpload.sampleDetail
              VideoUpload.clip "gru"%string
              (VideoUpload.Resolved VideoUpload.errorResponse)
              (VideoUpload.initial string)) as [_ [_ [Hnone _]]].
  split; [exact Hnone | reflexivity].
Defined.

(** A time before the start of the video, which no media element reports,
    would index [predictions[-1]]. *)
Example handleTimeUpdate_negative_time :
  VideoPlayer.handleTimeUpdate Sample.prop (Some (- (1 # 2))) Sample.start
  = VideoPlayer.Throw.
Proof. reflexivity. Qed.

(** * Further properties of the components *)

(** ** The player over a whole session *)

Lemma index_some_in_range {A : Type} (arr : list A) (i : Z) (x : A) :
  JS.index arr i = Some x -> (0 <= i < Z.of_nat (List.length arr))%Z.
Proof.
  unfold JS.index. destruct (Z.ltb_spec i 0) as [Hneg | Hpos]; [discriminate |].
  intros H. assert (Hlt : (Z.to_nat i < List.length arr)%nat).
  { apply nth_error_Some. rewrite H. discriminate. }
  lia.
Qed.

(** What a time update does to the headline: it is set from the response of
    the current render, or both prediction cells are left as they were. *)
Lemma handleTimeUpdate_source (prediction : VideoPlayer.PredictionProp)
    (video : option Q) (s s' : VideoPlayer.State) :
  VideoPlayer.handleTimeUpdate prediction video s = VideoPlayer.Normal s' ->
  VideoPlayer.showsCurrentSegment prediction s'
  \/ (VideoPlayer.currentSegment s' = VideoPlayer.currentSegment s
      /\ VideoPlayer.displayedPrediction s' = VideoPlayer.displayedPrediction s).
Proof.
  unfold VideoPlayer.handleTimeUpdate.
  destruct video as [t |]; [| intros H; injection H as <-; right; split; reflexivity].
  destruct (VideoPlayer.segmentChanged prediction s t).
  - destruct (JS.index (VideoPlayer.predictionList prediction)
                (VideoPlayer.segmentIndex t)) as [seg |] eqn:E; [| discriminate].
    intros H. injection H as <-. left. exists seg. split; [exact E | reflexivity].
  - intros H. injection H as <-. right. split; reflexivity.
Qed.

Lemma shows_same_cells (p : VideoPlayer.PredictionProp) (s s' : VideoPlayer.State) :
  VideoPlayer.currentSegment s' = VideoPlayer.currentSegment s ->
  VideoPlayer.displayedPrediction s' = VideoPlayer.displayedPrediction s ->
  VideoPlayer.showsCurrentSegment p s -> VideoPlayer.showsCurrentSegment p s'.
Proof.
  intros Hc Hd [seg [Hidx Hshown]]. exists seg. rewrite Hc, Hd. split; assumption.
Qed.

Lemma shows_in_range (p : VideoPlayer.PredictionProp) (s : VideoPlayer.State) :
  VideoPlayer.showsCurrentSegment p s ->
  exists seg,
    (0 <= VideoPlayer.currentSegment s
     < Z.of_nat (List.length (VideoPlayer.predictionList p)))%Z
    /\ nth_error (VideoPlayer.predictionList p)
                 (Z.to_nat (VideoPlayer.currentSegment s)) = Some seg
    /\ VideoPlayer.displayedPrediction s = VideoPlayer.top_prediction seg.
Proof.
  intros [seg [Hidx Hshown]]. exists seg.
  pose proof (index_some_in_range _ _ _ Hidx) as Hrange.
  split; [exact Hrange |]. split; [| exact Hshown].
  destruct (index_in_range (VideoPlayer.predictionList p)
              (VideoPlayer.currentSegment s) Hrange) as [seg' [Hidx' Hnth]].
  congruence.
Qed.

(** One event: no throw, and the headline keeps coming from a response the
    player was rendered with.  [P] holds of those responses. *)
Lemma handle_keeps_source (P : VideoPlayer.PredictionProp -> Prop)
    (prediction : VideoPlayer.PredictionProp) (s : VideoPlayer.State)
    (ev : PlayerSession.Event) :
  P prediction ->
  P (PlayerSession.propAfter prediction ev) ->
  (exists p, P p /\ VideoPlayer.showsCurrentSegment p s) ->
  PlayerSession.expected ev ->
  exists s',
    PlayerSession.handle prediction s ev = VideoPlayer.Normal s'
    /\ exists p, P p /\ VideoPlayer.showsCurrentSegment p s'.
Proof.
  intros Hcur Hnext [p [Hp Hshown]] Hev.
  destruct ev as [[t |] | [d |] | [|] | | | next]; simpl in *;
    try (eexists; split; [reflexivity |]; exists p; split; [exact Hp |];
         apply (shows_same_cells p s); [reflexivity | reflexivity | exact Hshown]).
  - destruct (handleTimeUpdate_normal prediction s t Hev) as [s' Hrun].
    exists s'. split; [exact Hrun |].
    destruct (handleTimeUpdate_source prediction (Some t) s s' Hrun)
      as [Hnew | [Hc Hd]].
    + exists prediction. split; assumption.
    + exists p. split; [exact Hp |]. now apply (shows_same_cells p s).
  - unfold PlayerSession.rerender, JS.index. simpl.
    destruct (VideoPlayer.predictionList next) as [| first rest];
      [now elim Hev |].
    simpl. eexists. split; [reflexivity |]. exists p. split; assumption.
Qed.

Lemma session_keeps_source (P : VideoPlayer.PredictionProp -> Prop)
    (events : list PlayerSession.Event) :
  forall (prediction : VideoPlayer.PredictionProp) (s : VideoPlayer.State),
    P prediction ->
    Forall P (PlayerSession.given events) ->
    (exists p, P p /\ VideoPlayer.showsCurrentSegment p s) ->
    Forall PlayerSession.expected events ->
    exists s',
      PlayerSession.session prediction events s = VideoPlayer.Normal s'
      /\ P (PlayerSession.currentProp prediction events)
      /\ exists p, P p /\ VideoPlayer.showsCurrentSegment p s'.
Proof.
  induction events as [| ev later IH]; intros prediction s Hcur Hgiven Hinv Hall;
    cbn [PlayerSession.session PlayerSession.currentProp].
  - exists s. split; [reflexivity |]. split; assumption.
  - inversion Hall as [| ? ? Hev Hlater]; subst.
    assert (Hnext : P (PlayerSession.propAfter prediction ev)
                    /\ Forall P (PlayerSession.given later)).
    { destruct ev; simpl in *; try (split; assumption).
      inversion Hgiven; subst. split; assumption. }
    destruct Hnext as [Hnext Hgiven'].
    destruct (handle_keeps_source P prediction s ev Hcur Hnext Hinv Hev)
      as [s1 [Hrun H1]].
    rewrite Hrun. now apply IH.
Qed.

(** X1. A mounted player is started from a first render that succeeds and
    then sees any series of time updates (at times that are not negative),
    metadata loads, button presses, play/pause events and renders with new
    responses (each with at least one prediction, the cells being kept).
    None of this throws.  Afterwards the headline is the [top_prediction]
    found at the current segment's index in one of the responses the player
    was rendered with, not necessarily the latest.  With no render by a new
    response it is that of the one response; and when all responses have as
    many predictions as the first, the current segment is an index of the
    latest one. *)
Theorem player_session_stays_in_range (prediction : VideoPlayer.PredictionProp)
    (events : list PlayerSession.Event) (s0 : VideoPlayer.State) :
  VideoPlayer.initState prediction = VideoPlayer.Normal s0 ->
  Forall PlayerSession.expected events ->
  exists s,
    PlayerSession.session prediction events s0 = VideoPlayer.Normal s
    /\ (exists p seg,
          In p (prediction :: PlayerSession.given events)
          /\ (0 <= VideoPlayer.currentSegment s
              < Z.of_nat (List.length (VideoPlayer.predictionList p)))%Z
          /\ nth_error (VideoPlayer.predictionList p)
                       (Z.to_nat (VideoPlayer.currentSegment s)) = Some seg
          /\ VideoPlayer.displayedPrediction s = VideoPlayer.top_prediction seg)
    /\ (PlayerSession.given events = [] ->
        exists seg,
          (0 <= VideoPlayer.currentSegment s
           < Z.of_nat (List.length (VideoPlayer.predictionList prediction)))%Z
          /\ nth_error (VideoPlayer.predictionList prediction)
                       (Z.to_nat (VideoPlayer.currentSegment s)) = Some seg
          /\ VideoPlayer.displayedPrediction s = VideoPlayer.top_prediction seg)
    /\ (Forall (fun p => List.length (VideoPlayer.predictionList p)
                         = List.length (VideoPlayer.predictionList prediction))
               (PlayerSession.given events) ->
        (0 <= VideoPlayer.currentSegment s
         < Z.of_nat (List.length
                       (VideoPlayer.predictionList
                          (PlayerSession.currentProp prediction events))))%Z).
Proof.
  intros Hinit Hall.
  pose proof (initState_showsCurrentSegment prediction s0 Hinit) as H0.
  destruct (session_keeps_source
              (fun p => In p (prediction :: PlayerSession.given events))
              events prediction s0) as [s [Hrun [_ [p [Hp Hshown]]]]].
  { now left. }
  { apply Forall_forall. intros q Hq. now right. }
  { exists prediction. split; [now left | exact H0]. }
  { exact Hall. }
  exists s. split; [exact Hrun |].
  split.
  { destruct (shows_in_range p s Hshown) as [seg Hseg].
    exists p, seg. split; [exact Hp | exact Hseg]. }
  split.
  { intros Hnone. rewrite Hnone in Hp. destruct Hp as [<- | []].
    exact (shows_in_range prediction s Hshown). }
  intros Hsame.
  destruct (session_keeps_source
              (fun p => List.length (VideoPlayer.predictionList p)
                        = List.length (VideoPlayer.predictionList prediction))
              events prediction s0 eq_refl Hsame)
    as [s' [Hrun' [Hlatest [q [Hq Hshown']]]]].
  { exists prediction. split; [reflexivity | exact H0]. }
  { exact Hall. }
  assert (s' = s) by congruence. subst s'.
  destruct (shows_in_range q s Hshown') as [seg [Hrange _]].
  rewrite Hlatest, <- Hq. exact Hrange.
Qed.

Lemma player_session_stays_in_range_sample :
  exists s,
    PlayerSession.session Sample.prop
      [PlayerSession.LoadedMetadata (Some 25); PlayerSession.PlayPause true;
       PlayerSession.Play; PlayerSession.TimeUpdate (Some (21 # 2));
       PlayerSession.Rerender Rerun.other;
       PlayerSession.TimeUpdate (Some 11); PlayerSession.Pause]
      Sample.start = VideoPlayer.Normal s
    /\ VideoPlayer.currentSegment s = 1%Z
    /\ VideoPlayer.displayedPrediction s = Sample.arabesque
    /\ nth_error (VideoPlayer.predictionList Sample.prop) 1 = Some Sample.seg1
    /\ nth_error (VideoPlayer.predictionList Rerun.other) 1 = Some Rerun.other1.
Proof.
  destruct (player_session_stays_in_range Sample.prop
              [PlayerSession.LoadedMetadata (Some 25); PlayerSession.PlayPause true;
               PlayerSession.Play; PlayerSession.TimeUpdate (Some (21 # 2));
               PlayerSession.Rerender Rerun.other;
               PlayerSession.TimeUpdate (Some 11); PlayerSession.Pause]
              Sample.start eq_refl) as [s [Hrun _]].
  { repeat constructor; simpl; try discriminate; unfold Qle; simpl; lia. }
  exists s. split; [exact Hrun |].
  vm_compute in Hrun. injection Hrun as <-. repeat split; reflexivity.
Defined.



(** After a render with a new response the cells are those of the old one: a
    headline from the first response stays over the rows of the second until
    the segment changes, and a response with fewer predictions leaves the
    note at "3 of 1" and the list without rows. *)
Example rerender_keeps_old_cells :
  PlayerSession.session Sample.prop
    [PlayerSession.TimeUpdate (Some 22); PlayerSession.Rerender Rerun.other;
     PlayerSession.TimeUpdate (Some 23)]
    Sample.start
  = VideoPlayer.Normal
      {| VideoPlayer.isPlaying := false;
         VideoPlayer.currentTime := 23;
         VideoPlayer.duration := 0;
         VideoPlayer.displayedPrediction := Sample.attitude;
         VideoPlayer.currentSegment := 2 |}
  /\ JS.index (VideoPlayer.predictionList Rerun.other) 2 = Some Rerun.other2
  /\ VideoPlayer.top_prediction Rerun.other2 = Sample.arabesque
  /\ PlayerSession.segmentNote Rerun.brief Sample.late = Some (3%Z, 1%Z)
  /\ VideoPlayer.top5Rows (fun _ => "1e+21"%string) Rerun.brief Sample.late = [].
Proof. repeat split; reflexivity. Qed.

(** ** Time updates, one after the other *)

Lemma handleTimeUpdate_segment (prediction : VideoPlayer.PredictionProp)
    (s s' : VideoPlayer.State) (t : Q) :
  VideoPlayer.handleTimeUpdate prediction (Some t) s = VideoPlayer.Normal s' ->
  VideoPlayer.currentSegment s'
  = if (VideoPlayer.segmentIndex t
          <? Z.of_nat (List.length (VideoPlayer.predictionList prediction)))%Z
    then VideoPlayer.segmentIndex t
    else VideoPlayer.currentSegment s.
Proof.
  unfold VideoPlayer.handleTimeUpdate, VideoPlayer.segmentChanged.
  destruct (Z.ltb_spec (VideoPlayer.segmentIndex t)
              (Z.of_nat (List.length (VideoPlayer.predictionList prediction))))
    as [Hlt | Hge]; cbn [andb].
  - destruct (Z.eqb_spec (VideoPlayer.segmentIndex t) (VideoPlayer.currentSegment s))
      as [Heq | Hne]; cbn [negb].
    + intros H. injection H as <-. simpl. now symmetry.
    + destruct (JS.index (VideoPlayer.predictionList prediction)
                  (VideoPlayer.segmentIndex t)); [| discriminate].
      intros H. injection H as <-. reflexivity.
  - intros H. injection H as <-. reflexivity.
Qed.

(** X2. From any state of the player, also one whose cells were left by an
    earlier response, a series of time updates at times that are not
    negative ends normally with the current segment at the index of the last
    time that fell inside the timeline (where it started if none did).
    Either none of the updates changed the segment, and then segment and
    headline are what they were, or the headline is the [top_prediction] of
    the current segment in this response.  In particular it is so as soon as
    the segment ends elsewhere than it started. *)
Theorem play_tracks_last_time (prediction : VideoPlayer.PredictionProp)
    (times : list Q) (s : VideoPlayer.State) :
  Forall (Qle 0) times ->
  exists s',
    VideoPlayer.play prediction times s = VideoPlayer.Normal s'
    /\ VideoPlayer.currentSegment s'
       = PlayerSession.lastShown
           (Z.of_nat (List.length (VideoPlayer.predictionList prediction)))
           times (VideoPlayer.currentSegment s)
    /\ ((exists seg,
            JS.index (VideoPlayer.predictionList prediction)
                     (VideoPlayer.currentSegment s') = Some seg
            /\ VideoPlayer.displayedPrediction s' = VideoPlayer.top_prediction seg)
        \/ (VideoPlayer.currentSegment s' = VideoPlayer.currentSegment s
            /\ VideoPlayer.displayedPrediction s' = VideoPlayer.displayedPrediction s))
    /\ (VideoPlayer.currentSegment s' <> VideoPlayer.currentSegment s ->
        exists seg,
          JS.index (VideoPlayer.predictionList prediction)
                   (VideoPlayer.currentSegment s') = Some seg
          /\ VideoPlayer.displayedPrediction s' = VideoPlayer.top_prediction seg).
Proof.
  intros Hpos.
  assert (H : exists s',
             VideoPlayer.play prediction times s = VideoPlayer.Normal s'
             /\ VideoPlayer.currentSegment s'
                = PlayerSession.lastShown
                    (Z.of_nat (List.length (VideoPlayer.predictionList prediction)))
                    times (VideoPlayer.currentSegment s)
             /\ (VideoPlayer.showsCurrentSegment prediction s'
                 \/ (VideoPlayer.currentSegment s' = VideoPlayer.currentSegment s
                     /\ VideoPlayer.displayedPrediction s'
                        = VideoPlayer.displayedPrediction s))).
  { revert s. induction times as [| t later IH]; intros s;
      cbn [VideoPlayer.play PlayerSession.lastShown].
    - exists s. split; [reflexivity |]. split; [reflexivity |].
      right. split; reflexivity.
    - inversion Hpos as [| ? ? Ht Hlater]; subst.
      destruct (handleTimeUpdate_normal prediction s t Ht) as [s1 Hrun].
      rewrite Hrun.
      rewrite <- (handleTimeUpdate_segment prediction s s1 t Hrun).
      destruct (handleTimeUpdate_source prediction (Some t) s s1 Hrun)
        as [Hnew | [Hc Hd]].
      + destruct (play_showsCurrentSegment prediction later s1 Hnew Hlater)
          as [s' [Hplay Hshown]].
        destruct (IH Hlater s1) as [s'' [Hplay' [Hcur _]]].
        assert (s'' = s') by congruence. subst s''.
        exists s'. split; [exact Hplay |]. split; [exact Hcur |]. now left.
      + destruct (IH Hlater s1) as [s' [Hplay [Hcur Hcells]]].
        exists s'. split; [exact Hplay |]. split; [exact Hcur |].
        destruct Hcells as [Hshown | [Hc' Hd']]; [now left | right].
        split; congruence. }
  destruct H as [s' [Hplay [Hcur Hcells]]].
  exists s'. split; [exact Hplay |]. split; [exact Hcur |].
  split; [exact Hcells |].
  intros Hmoved. destruct Hcells as [Hshown | [Hc _]]; [exact Hshown |].
  now elim Hmoved.
Qed.

Lemma play_tracks_last_time_sample :
  Forall (Qle 0) [3; 27; 14; 99]
  /\ exists s',
       VideoPlayer.play Rerun.other [3; 27; 14; 99] Sample.late
       = VideoPlayer.Normal s'
       /\ VideoPlayer.currentSegment s' = 1%Z
       /\ VideoPlayer.displayedPrediction s' = Sample.pirouette.
Proof.
  assert (Hpos : Forall (Qle 0) [3; 27; 14; 99]).
  { repeat constructor; unfold Qle; simpl; lia. }
  split; [exact Hpos |].
  destruct (play_tracks_last_time Rerun.other [3; 27; 14; 99] Sample.late Hpos)
    as [s' [Hrun [Hcur [_ Hmoved]]]].
  exists s'. split; [exact Hrun |]. split; [exact Hcur |].
  destruct Hmoved as [seg [Hidx Hshown]].
  - rewrite Hcur. vm_compute. discriminate.
  - rewrite Hshown. rewrite Hcur in Hidx. vm_compute in Hidx.
    injection Hidx as <-. reflexivity.
Defined.

(** X3. Handling the same time twice is the same as handling it once: the
    second update changes nothing. *)
Theorem handleTimeUpdate_idempotent (prediction : VideoPlayer.PredictionProp)
    (s : VideoPlayer.State) (t : Q) :
  0 <= t ->
  exists s1,
    VideoPlayer.handleTimeUpdate prediction (Some t) s = VideoPlayer.Normal s1
    /\ VideoPlayer.handleTimeUpdate prediction (Some t) s1 = VideoPlayer.Normal s1.
Proof.
  intros Ht.
  destruct (handleTimeUpdate_normal prediction s t Ht) as [s1 Hrun].
  exists s1. split; [exact Hrun |].
  pose proof (handleTimeUpdate_segment prediction s s1 t Hrun) as Hcur.
  assert (Htime : VideoPlayer.currentTime s1 = t).
  { revert Hrun. unfold VideoPlayer.handleTimeUpdate.
    destruct (VideoPlayer.segmentChanged prediction s t).
    - destruct (JS.index (VideoPlayer.predictionList prediction)
                  (VideoPlayer.segmentIndex t)); [| discriminate].
      intros H. injection H as <-. reflexivity.
    - intros H. injection H as <-. reflexivity. }
  assert (G : VideoPlayer.segmentChanged prediction s1 t = false).
  { unfold VideoPlayer.segmentChanged. rewrite Hcur.
    destruct (Z.ltb_spec (VideoPlayer.segmentIndex t)
                (Z.of_nat (List.length (VideoPlayer.predictionList prediction))))
      as [Hlt | Hge]; cbn [andb]; [| reflexivity].
    rewrite Z.eqb_refl. reflexivity. }
  unfold VideoPlayer.handleTimeUpdate. rewrite G.
  destruct s1 as [p c d dp cs]. simpl in Htime. subst c. reflexivity.
Qed.

Lemma handleTimeUpdate_idempotent_sample :
  0 <= 12
  /\ exists s1,
       VideoPlayer.handleTimeUpdate Sample.prop (Some 12) Sample.start
       = VideoPlayer.Normal s1
       /\ VideoPlayer.handleTimeUpdate Sample.prop (Some 12) s1
          = VideoPlayer.Normal s1
       /\ VideoPlayer.currentSegment s1 = 1%Z.
Proof.
  assert (H12 : 0 <= 12) by (unfold Qle; simpl; lia).
  split; [exact H12 |].
  destruct (handleTimeUpdate_idempotent Sample.prop Sample.start 12 H12)
    as [s1 [Hrun Hagain]].
  exists s1. split; [exact Hrun |]. split; [exact Hagain |].
  vm_compute in Hrun. injection Hrun as <-. reflexivity.
Defined.

(** ** Segments and the seconds counter *)

(** X6. The segment index never decreases with time, and ten seconds later
    it is exactly one more: playing forward visits the segments in order,
    one every ten seconds. *)
Theorem segmentIndex_monotone (t1 t2 : Q) :
  t1 <= t2 ->
  (VideoPlayer.segmentIndex t1 <= VideoPlayer.segmentIndex t2)%Z
  /\ VideoPlayer.segmentIndex (t1 + 10) = (VideoPlayer.segmentIndex t1 + 1)%Z.
Proof.
  intros Hle. split.
  - unfold VideoPlayer.segmentIndex, JS.Math_floor.
    apply Qfloor_resp_le.
    assert (E1 : t1 / 10 == t1 * (1 # 10)) by (unfold Qdiv; reflexivity).
    assert (E2 : t2 / 10 == t2 * (1 # 10)) by (unfold Qdiv; reflexivity).
    rewrite E1, E2. lra.
  - apply segmentIndex_bounds.
    destruct (segmentIndex_bounds t1 (VideoPlayer.segmentIndex t1)) as [B _].
    destruct (B eq_refl) as [Blo Bhi].
    rewrite inject_Z_plus. change (inject_Z 1) with 1.
    split; lra.
Qed.

Lemma segmentIndex_monotone_sample :
  7 <= 19
  /\ (VideoPlayer.segmentIndex 7 <= VideoPlayer.segmentIndex 19)%Z
  /\ VideoPlayer.segmentIndex (7 + 10) = 1%Z.
Proof.
  assert (H : 7 <= 19) by (unfold Qle; simpl; lia).
  split; [exact H |].
  destruct (segmentIndex_monotone 7 19 H) as [Hmono Hshift].
  split; [exact Hmono | exact Hshift].
Defined.

Lemma segmentIndex_of_seconds (t : Q) :
  VideoPlayer.segmentIndex t = (JS.Math_floor t / 10)%Z.
Proof.
  apply segmentIndex_bounds. unfold JS.Math_floor.
  pose proof (Qfloor_le t) as Hlo.
  pose proof (Qlt_floor t) as Hhi.
  rewrite inject_Z_plus in Hhi. change (inject_Z 1) with 1 in Hhi.
  pose proof (Z.div_mod (Qfloor t) 10 ltac:(lia)) as Hdm.
  pose proof (Z.mod_pos_bound (Qfloor t) 10 ltac:(lia)) as Hmod.
  assert (H1 : (10 * (Qfloor t / 10) <= Qfloor t)%Z) by lia.
  assert (H2 : (Qfloor t + 1 <= 10 * (Qfloor t / 10) + 10)%Z) by lia.
  rewrite Zle_Qle in H1, H2.
  rewrite inject_Z_mult in H1.
  rewrite !inject_Z_plus, inject_Z_mult in H2.
  change (inject_Z 10) with 10 in H1, H2.
  change (inject_Z 1) with 1 in H2.
  split; lra.
Qed.

(** X7. The segment is decided by the whole seconds the counter under the
    video shows: [floor(t / 10)] is [floor(t)] divided by ten.  After a time
    update at [t >= 0] the counter shows [floor(t)], and when that many
    seconds divided by ten is below the number of predictions it is the
    current segment. *)
Theorem counter_decides_segment (prediction : VideoPlayer.PredictionProp)
    (s : VideoPlayer.State) (t : Q) :
  0 <= t ->
  VideoPlayer.segmentIndex t = (JS.Math_floor t / 10)%Z
  /\ exists s',
       VideoPlayer.handleTimeUpdate prediction (Some t) s = VideoPlayer.Normal s'
       /\ fst (PlayerSession.timelineInfo s') = JS.Math_floor t
       /\ snd (PlayerSession.timelineInfo s') = snd (PlayerSession.timelineInfo s)
       /\ ((fst (PlayerSession.timelineInfo s') / 10
            < Z.of_nat (List.length (VideoPlayer.predictionList prediction)))%Z ->
           VideoPlayer.currentSegment s'
           = (fst (PlayerSession.timelineInfo s') / 10)%Z).
Proof.
  intros Ht. split; [apply segmentIndex_of_seconds |].
  destruct (handleTimeUpdate_normal prediction s t Ht) as [s' Hrun].
  exists s'. split; [exact Hrun |].
  pose proof (handleTimeUpdate_segment prediction s s' t Hrun) as Hcur.
  assert (Hcells : VideoPlayer.currentTime s' = t
                   /\ VideoPlayer.duration s' = VideoPlayer.duration s).
  { revert Hrun. unfold VideoPlayer.handleTimeUpdate.
    destruct (VideoPlayer.segmentChanged prediction s t).
    - destruct (JS.index (VideoPlayer.predictionList prediction)
                  (VideoPlayer.segmentIndex t)); [| discriminate].
      intros H. injection H as <-. split; reflexivity.
    - intros H. injection H as <-. split; reflexivity. }
  destruct Hcells as [Htime Hdur].
  unfold PlayerSession.timelineInfo. cbn [fst snd].
  rewrite Htime, Hdur.
  split; [reflexivity |]. split; [reflexivity |].
  intros Hlt. rewrite <- segmentIndex_of_seconds in Hlt |- *.
  rewrite Hcur. apply Z.ltb_lt in Hlt. now rewrite Hlt.
Qed.

Lemma counter_decides_segment_sample :
  0 <= 239 # 10
  /\ VideoPlayer.segmentIndex (239 # 10) = (23 / 10)%Z
  /\ exists s',
       VideoPlayer.handleTimeUpdate Sample.prop (Some (239 # 10)) Sample.start
       = VideoPlayer.Normal s'
       /\ fst (PlayerSession.timelineInfo s') = 23%Z
       /\ VideoPlayer.currentSegment s' = 2%Z.
Proof.
  assert (Ht : 0 <= 239 # 10) by (unfold Qle; simpl; lia).
  split; [exact Ht |].
  destruct (counter_decides_segment Sample.prop Sample.start (239 # 10) Ht)
    as [Hidx [s' [Hrun [Hcounter _]]]].
  split; [exact Hidx |].
  exists s'. split; [exact Hrun |]. split; [exact Hcounter |].
  vm_compute in Hrun. injection Hrun as <-. reflexivity.
Defined.

(** ** The colours of the rows *)

Lemma mapi_from_index_only {A B : Type} (g : nat -> B) (l : list A) :
  forall i, JS.mapi_from (fun _ index => g index) i l = map g (seq i (List.length l)).
Proof.
  induction l as [| x rest IH]; intros i; simpl.
  - reflexivity.
  - now rewrite IH.
Qed.

Lemma firstn_seq (n : nat) :
  forall start len : nat, firstn n (seq start len) = seq start (Nat.min n len).
Proof.
  induction n as [| n IH]; intros start len.
  - reflexivity.
  - destruct len as [| len]; simpl; [reflexivity |]. now rewrite IH.
Qed.

Lemma colours_agree_below_five (i : nat) :
  (i < 5)%nat ->
  BarColor.player i = BarColor.display i
  /\ BarColor.player i <> "bg-green-200"%string.
Proof.
  intros Hi.
  do 5 (destruct i as [| i]; [split; [reflexivity | discriminate] |]).
  lia.
Qed.

(** X5. The player never renders a bar in "bg-green-200": that class is
    chosen for index 5, and the rows stop at index 4.  On one and the same
    top-5 list the player's colours are the first five of the colours the
    single-result display gives. *)
Theorem player_bar_colours (prediction : VideoPlayer.PredictionProp)
    (s : VideoPlayer.State) :
  Forall (fun colour => colour <> "bg-green-200"%string)
         (BarColor.playerRows prediction s)
  /\ forall seg display,
       JS.index (VideoPlayer.predictionList prediction)
                (VideoPlayer.currentSegment s) = Some seg ->
       PredictionDisplay.top5_predictions display
         = VideoPlayer.top5_predictions seg ->
       BarColor.playerRows prediction s
       = firstn 5 (BarColor.displayRows display).
Proof.
  assert (Hrows : forall l : list Prediction,
             JS.mapi (fun _ index => BarColor.player index) (JS.slice0 5 l)
             = map BarColor.player (seq 0 (Nat.min 5 (List.length l)))).
  { intros l. unfold JS.mapi, JS.slice0.
    rewrite mapi_from_index_only, length_firstn. reflexivity. }
  split.
  - unfold BarColor.playerRows.
    destruct (JS.index (VideoPlayer.predictionList prediction)
                (VideoPlayer.currentSegment s)) as [seg |]; [| constructor].
    rewrite Hrows. apply Forall_map, Forall_forall.
    intros i Hin. apply in_seq in Hin.
    apply colours_agree_below_five. lia.
  - intros seg display Hidx Htop.
    unfold BarColor.playerRows, BarColor.displayRows. rewrite Hidx, Htop, Hrows.
    unfold JS.mapi. rewrite mapi_from_index_only.
    rewrite firstn_map, firstn_seq.
    apply map_ext_in. intros i Hin. apply in_seq in Hin.
    apply colours_agree_below_five. lia.
Qed.

Lemma player_bar_colours_sample :
  BarColor.playerRows (VideoPlayer.Single Sample.crowded) Sample.start
  = ["bg-purple-600"; "bg-blue-400"; "bg-cyan-400"; "bg-teal-400";
     "bg-green-400"]%string.
Proof.
  destruct (player_bar_colours (VideoPlayer.Single Sample.crowded) Sample.start)
    as [_ Hsame].
  rewrite (Hsame Sample.crowded
             {| PredictionDisplay.top_prediction := Sample.pirouette;
                PredictionDisplay.top5_predictions :=
                  VideoPlayer.top5_predictions Sample.crowded;
                PredictionDisplay.all_predictions := [];
                PredictionDisplay.model_info :=
                  PredictionDisplay.model_info Sample.single |}
             eq_refl eq_refl).
  reflexivity.
Defined.


(** ** Sessions of the upload page *)

Section PageFacts.

Import VideoUpload.
Local Open Scope string_scope.

Variable Json : Type.
Variable detail : Json -> Settled (option string).
Variable toLowerCase : string -> string.

(** Case analysis of one event: the click is ignored, keeps the model, or
    changes it with or without a file; the chosen file is absent, accepted
    or rejected; the settled request is unknown, or it succeeded or failed. *)
Ltac step_cases s ev :=
  let b := fresh "b" in
  let file := fresh "file" in
  let i := fresh "i" in
  let outcome := fresh "outcome" in
  let rest := fresh "rest" in
  destruct ev as [b | [file |] | i outcome]; cbn [step];
  [ unfold clickModel;
    destruct (loading s) eqn:?;
    [ | destruct (modelOf b =? selectedModel s) eqn:?;
        [ | unfold modelEffect; cbn [uploadedFile loading negb];
            destruct (uploadedFile s) eqn:? ] ]
  | unfold handleVideoUpload;
    destruct (JS.includes allowedTypes (fileExt toLowerCase file)) eqn:?
  | unfold handleVideoUpload
  | destruct (take i (pending s)) as [[file rest] |] eqn:?;
    [ unfold processVideoWithModel_resume;
      destruct (tryBody detail outcome) eqn:? | ] ];
  cbn [negb app applyAll fold_left apply processVideoWithModel_begin fst snd
       uploadedFile uploadError selectedModel prediction loading error
       selectedVideo uploadedVideoFile pending].

Lemma run_step (s : State Json) (ev : Event Json) (later : list (Event Json)) :
  run detail toLowerCase s (ev :: later)
  = (fst (run detail toLowerCase (fst (step detail toLowerCase s ev)) later),
     (snd (step detail toLowerCase s ev)
      ++ snd (run detail toLowerCase (fst (step detail toLowerCase s ev)) later))%list).
Proof.
  cbn [run].
  destruct (step detail toLowerCase s ev) as [s1 effects1]. cbn [fst snd].
  destruct (run detail toLowerCase s1 later) as [s2 effects2].
  reflexivity.
Qed.

(** A relation between a state, what is called from it and the state reached
    holds of a whole session when it holds of every event and composes. *)
Lemma run_relation (R : State Json -> list (Effect Json) -> State Json -> Prop) :
  (forall s, R s [] s) ->
  (forall s a s1 b s2, R s a s1 -> R s1 b s2 -> R s (a ++ b)%list s2) ->
  (forall s ev,
      R s (snd (step detail toLowerCase s ev)) (fst (step detail toLowerCase s ev))) ->
  forall events s,
    R s (snd (run detail toLowerCase s events)) (fst (run detail toLowerCase s events)).
Proof.
  intros Hnil Happ Hstep. induction events as [| ev later IH]; intros s.
  - apply Hnil.
  - rewrite run_step. cbn [fst snd].
    apply Happ with (fst (step detail toLowerCase s ev)); [apply Hstep | apply IH].
Qed.

Lemma lastCallback_app (a b : list (Effect Json)) :
  Home.lastCallback (a ++ b)
  = match Home.lastCallback b with
    | Some c => Some c
    | None => Home.lastCallback a
    end.
Proof.
  induction a as [| e a IH]; simpl.
  - destruct (Home.lastCallback b); reflexivity.
  - rewrite IH. destruct (Home.lastCallback b); reflexivity.
Qed.

(** The page's result cells after a session, from the cells before. *)
Lemma run_shows (events : list (Event Json)) (s : State Json) :
  prediction (fst (run detail toLowerCase s events))
  = match Home.lastCallback (snd (run detail toLowerCase s events)) with
    | Some (result, _) => Some result
    | None => prediction s
    end
  /\ uploadedVideoFile (fst (run detail toLowerCase s events))
     = match Home.lastCallback (snd (run detail toLowerCase s events)) with
       | Some (_, file) => Some file
       | None => uploadedVideoFile s
       end.
Proof.
  revert events s.
  apply (run_relation
           (fun s effects s' =>
              prediction s'
              = match Home.lastCallback effects with
                | Some (result, _) => Some result
                | None => prediction s
                end
              /\ uploadedVideoFile s'
                 = match Home.lastCallback effects with
                   | Some (_, file) => Some file
                   | None => uploadedVideoFile s
                   end)).
  - intros s. split; reflexivity.
  - intros s a s1 b s2 [Ha1 Ha2] [Hb1 Hb2].
    rewrite lastCallback_app.
    destruct (Home.lastCallback b) as [[result file] |].
    + split; assumption.
    + rewrite Hb1, Hb2. split; assumption.
  - intros s ev. step_cases s ev; split; reflexivity.
Qed.

(** X8. At any point of a session the page holds the body of the latest
    response that succeeded, together with the file that request was made
    for; requests that failed since then change neither.  The player is on
    the page exactly when there is such a response and its body is truthy. *)
Theorem page_shows_latest_result (events : list (Event Json))
    (truthy : Json -> bool) :
  let s := fst (run detail toLowerCase (initial Json) events) in
  let effects := snd (run detail toLowerCase (initial Json) events) in
  prediction s = option_map fst (Home.lastCallback effects)
  /\ uploadedVideoFile s = option_map snd (Home.lastCallback effects)
  /\ Home.playerShown truthy s
     = match Home.lastCallback effects with
       | Some (result, _) => truthy result
       | None => false
       end.
Proof.
  intros s effects. subst s effects.
  destruct (run_shows events (initial Json)) as [Hp Hf].
  unfold Home.playerShown. rewrite Hp, Hf.
  destruct (Home.lastCallback (snd (run detail toLowerCase (initial Json) events)))
    as [[result file] |]; repeat split; reflexivity.
Qed.

(** X9. The name reported to the page is always the name of the file the
    component holds: [selectedVideo] is set whenever [uploadedFile] is, to
    its name. *)
Theorem selectedVideo_names_uploadedFile (events : list (Event Json)) :
  let s := fst (run detail toLowerCase (initial Json) events) in
  selectedVideo s = option_map name (uploadedFile s).
Proof.
  intros s. subst s.
  apply (run_relation
           (fun s _ s' =>
              selectedVideo s = option_map name (uploadedFile s) ->
              selectedVideo s' = option_map name (uploadedFile s'))).
  - intros s H. exact H.
  - intros s a s1 b s2 Ha Hb H. apply Hb, Ha, H.
  - intros s ev H. step_cases s ev; try exact H; reflexivity.
  - reflexivity.
Qed.

Lemma take_length {A : Type} (i : nat) :
  forall (l rest : list A) (x : A),
    take i l = Some (x, rest) -> List.length l = S (List.length rest).
Proof.
  induction i as [| i IH]; intros [| y l] rest x H; simpl in H;
    try discriminate.
  - injection H as <- <-. reflexivity.
  - destruct (take i l) as [[z rest'] |] eqn:E; [| discriminate].
    injection H as <- <-. simpl. now rewrite (IH l rest' z E).
Qed.

Lemma take_In {A : Type} (i : nat) :
  forall (l rest : list A) (x : A),
    take i l = Some (x, rest) -> In x l /\ forall y, In y rest -> In y l.
Proof.
  induction i as [| i IH]; intros [| y l] rest x H; simpl in H;
    try discriminate.
  - injection H as <- <-. split; [now left | intros z Hz; now right].
  - destruct (take i l) as [[z rest'] |] eqn:E; [| discriminate].
    injection H as <- <-. destruct (IH l rest' z E) as [Hin Hsub].
    split; [now right |].
    intros w [<- | Hw]; [now left | right; now apply Hsub].
Qed.

Lemma delivered_app (a b : list (Effect Json)) :
  Home.delivered (a ++ b) = (Home.delivered a + Home.delivered b)%nat.
Proof.
  induction a as [| e a IH]; simpl; [reflexivity |].
  destruct e; simpl; rewrite IH; reflexivity.
Qed.

Lemma reported_app (a b : list (Effect Json)) :
  Home.reported (a ++ b) = (Home.reported a + Home.reported b)%nat.
Proof.
  induction a as [| e a IH]; simpl; [reflexivity |].
  destruct e as [| [m |] | | | | |]; simpl; rewrite IH; reflexivity.
Qed.

(** X11. Every request is accounted for: at any point of a session the
    number of requests made is the number of results delivered, plus the
    number of errors reported to the page, plus the number of requests that
    have not settled. *)
Theorem requests_accounted_for (events : list (Event Json)) :
  let s := fst (run detail toLowerCase (initial Json) events) in
  let effects := snd (run detail toLowerCase (initial Json) events) in
  List.length (requests effects)
  = (Home.delivered effects + Home.reported effects + List.length (pending s))%nat.
Proof.
  intros s effects. subst s effects.
  assert (H : forall events s,
             (List.length (requests (snd (run detail toLowerCase s events)))
              + List.length (pending s)
              = Home.delivered (snd (run detail toLowerCase s events))
                + Home.reported (snd (run detail toLowerCase s events))
                + List.length (pending (fst (run detail toLowerCase s events))))%nat).
  { apply (run_relation
             (fun s effects s' =>
                (List.length (requests effects) + List.length (pending s)
                 = Home.delivered effects + Home.reported effects
                   + List.length (pending s'))%nat)).
    - intros s. reflexivity.
    - intros s a s1 b s2 Ha Hb.
      rewrite requests_app, length_app, delivered_app, reported_app. lia.
    - intros s ev. step_cases s ev; simpl;
        try rewrite length_app; simpl;
        try match goal with
            | E : take _ _ = Some _ |- _ => rewrite (take_length _ _ _ _ E)
            end;
        lia. }
  specialize (H events (initial Json)). simpl in H. lia.
Qed.

(** X15. Neither error cell ever holds the empty string, so each banner is
    on the page exactly when its cell is set, with the cell's text. *)
Theorem banners_never_empty (events : list (Event Json)) :
  let s := fst (run detail toLowerCase (initial Json) events) in
  error s <> Some ""
  /\ uploadError s <> Some ""
  /\ Home.banner (error s) = error s
  /\ Home.banner (uploadError s) = uploadError s.
Proof.
  intros s. subst s.
  assert (H : error (fst (run detail toLowerCase (initial Json) events)) <> Some ""
              /\ uploadError (fst (run detail toLowerCase (initial Json) events))
                 <> Some "").
  { apply (run_relation
             (fun s _ s' =>
                error s <> Some "" /\ uploadError s <> Some "" ->
                error s' <> Some "" /\ uploadError s' <> Some "")).
    - intros s H. exact H.
    - intros s a s1 b s2 Ha Hb H. apply Hb, Ha, H.
    - intros s ev [He Hu]. step_cases s ev;
        try (split; assumption); try (split; discriminate);
        try (split; [assumption | discriminate]).
      split; intros H; injection H as H;
        revert H; apply or_else_nonempty; discriminate.
    - split; discriminate. }
  destruct H as [He Hu].
  split; [exact He |]. split; [exact Hu |].
  split.
  - destruct (error (fst (run detail toLowerCase (initial Json) events)))
      as [[| c m] |]; try reflexivity. now elim He.
  - destruct (uploadError (fst (run detail toLowerCase (initial Json) events)))
      as [[| c m] |]; try reflexivity. now elim Hu.
Qed.

Lemma deliveredFiles_app (a b : list (Effect Json)) :
  Home.deliveredFiles (a ++ b)
  = (Home.deliveredFiles a ++ Home.deliveredFiles b)%list.
Proof.
  induction a as [| e a IH]; simpl; [reflexivity |].
  destruct e; simpl; rewrite IH; reflexivity.
Qed.

(** X10. Only files that passed the extension check ever leave the
    component: in any session every request carries such a file, every file
    handed to [onPredictFromVideo] is one, and so are the file the component
    holds, the file the page holds and the files of the pending requests. *)
Theorem only_checked_files_are_sent (events : list (Event Json)) :
  let s := fst (run detail toLowerCase (initial Json) events) in
  let effects := snd (run detail toLowerCase (initial Json) events) in
  Forall (fun r => Home.allowed toLowerCase (snd r)) (requests effects)
  /\ Forall (Home.allowed toLowerCase) (Home.deliveredFiles effects)
  /\ Forall (Home.allowed toLowerCase) (pending s)
  /\ (forall file, uploadedFile s = Some file -> Home.allowed toLowerCase file)
  /\ (forall file, uploadedVideoFile s = Some file -> Home.allowed toLowerCase file).
Proof.
  intros s effects. subst s effects.
  assert (H : forall events s,
             ((forall file, uploadedFile s = Some file -> Home.allowed toLowerCase file)
              /\ Forall (Home.allowed toLowerCase) (pending s)
              /\ (forall file, uploadedVideoFile s = Some file ->
                               Home.allowed toLowerCase file)) ->
             ((forall file,
                  uploadedFile (fst (run detail toLowerCase s events)) = Some file ->
                  Home.allowed toLowerCase file)
              /\ Forall (Home.allowed toLowerCase)
                        (pending (fst (run detail toLowerCase s events)))
              /\ (forall file,
                     uploadedVideoFile (fst (run detail toLowerCase s events))
                     = Some file ->
                     Home.allowed toLowerCase file))
             /\ Forall (fun r => Home.allowed toLowerCase (snd r))
                       (requests (snd (run detail toLowerCase s events)))
             /\ Forall (Home.allowed toLowerCase)
                       (Home.deliveredFiles (snd (run detail toLowerCase s events)))).
  { apply (run_relation
             (fun s effects s' =>
                ((forall file, uploadedFile s = Some file ->
                               Home.allowed toLowerCase file)
                 /\ Forall (Home.allowed toLowerCase) (pending s)
                 /\ (forall file, uploadedVideoFile s = Some file ->
                                  Home.allowed toLowerCase file)) ->
                ((forall file, uploadedFile s' = Some file ->
                               Home.allowed toLowerCase file)
                 /\ Forall (Home.allowed toLowerCase) (pending s')
                 /\ (forall file, uploadedVideoFile s' = Some file ->
                                  Home.allowed toLowerCase file))
                /\ Forall (fun r => Home.allowed toLowerCase (snd r))
                          (requests effects)
                /\ Forall (Home.allowed toLowerCase) (Home.deliveredFiles effects))).
    - intros s Hs. split; [exact Hs |]. split; constructor.
    - intros s a s1 b s2 Ha Hb Hs.
      destruct (Ha Hs) as [H1 [Ra Da]]. destruct (Hb H1) as [H2 [Rb Db]].
      split; [exact H2 |].
      rewrite requests_app, deliveredFiles_app.
      split; apply Forall_app; split; assumption.
    - intros s ev [Hu [Hp Hv]].
      step_cases s ev;
        try (split; [split; [| split]; assumption | split; constructor]).
      + (* the model changes and a file is there *)
        assert (Hfile : Home.allowed toLowerCase f) by (apply Hu; reflexivity).
        split; [split; [exact Hu | split; [| exact Hv]] |].
        * apply Forall_app. split; [exact Hp | now constructor].
        * simpl. split; repeat constructor. exact Hfile.
      + (* a file is accepted *)
        split; [split; [| split; [| exact Hv]] |].
        * intros g Hg. injection Hg as <-. assumption.
        * apply Forall_app. split; [exact Hp | now constructor].
        * simpl. split; repeat constructor. assumption.
      + (* a request succeeds *)
        match goal with
        | E : take _ _ = Some _ |- _ => destruct (take_In _ _ _ _ E) as [Hin Hsub]
        end.
        rewrite Forall_forall in Hp.
        split; [split; [exact Hu | split] |].
        * apply Forall_forall. intros g Hg. apply Hp, Hsub, Hg.
        * intros g Hg. injection Hg as <-. apply Hp, Hin.
        * simpl. split; repeat constructor. apply Hp, Hin.
      + (* a request fails *)
        match goal with
        | E : take _ _ = Some _ |- _ => destruct (take_In _ _ _ _ E) as [Hin Hsub]
        end.
        rewrite Forall_forall in Hp.
        split; [split; [exact Hu | split; [| exact Hv]] |].
        * apply Forall_forall. intros g Hg. apply Hp, Hsub, Hg.
        * simpl. split; constructor. }
  destruct (H events (initial Json)) as [[Hu [Hp Hv]] [Hr Hd]].
  { split; [discriminate |]. split; [constructor | discriminate]. }
  repeat split; assumption.
Qed.

Lemma idle_has_no_request (s : State Json) :
  (loading s = true <-> pending s <> []) -> loading s = false -> pending s = [].
Proof.
  intros Hload L. destruct (pending s) as [| x l]; [reflexivity |].
  assert (T : loading s = true) by (apply Hload; discriminate). congruence.
Qed.

Lemma step_keeps_single_request (s : State Json) (ev : Event Json) :
  ((List.length (pending s) <= 1)%nat
   /\ (loading s = true <-> pending s <> [])
   /\ Forall (fun file => uploadedFile s = Some file) (pending s)) ->
  match ev with
  | Change (Some _) => negb (loading s)
  | _ => true
  end = true ->
  (List.length (pending (fst (step detail toLowerCase s ev))) <= 1)%nat
  /\ (loading (fst (step detail toLowerCase s ev)) = true
      <-> pending (fst (step detail toLowerCase s ev)) <> [])
  /\ Forall (fun file => uploadedFile (fst (step detail toLowerCase s ev)) = Some file)
            (pending (fst (step detail toLowerCase s ev))).
Proof.
  intros Hs Hev.
  pose proof (idle_has_no_request s (proj1 (proj2 Hs))) as Hidle.
  destruct ev as [b | [file |] | i outcome]; cbn [step].
  - unfold clickModel.
    destruct (Bool.bool_dec (loading s) true) as [L | L];
      [rewrite L; exact Hs | apply not_true_is_false in L; rewrite L].
    destruct (modelOf b =? selectedModel s); [exact Hs |].
    unfold modelEffect. cbn [uploadedFile loading negb].
    rewrite (Hidle L).
    destruct (uploadedFile s) as [file |]; simpl.
    + split; [lia |]. split; [split; [discriminate | reflexivity] |].
      repeat constructor.
    + split; [lia |]. split; [split; [discriminate | intros H; now elim H] |].
      constructor.
  - apply negb_true_iff in Hev. unfold handleVideoUpload.
    destruct (JS.includes allowedTypes (fileExt toLowerCase file)); simpl.
    + rewrite (Hidle Hev). simpl.
      split; [lia |]. split; [split; [discriminate | reflexivity] |].
      repeat constructor.
    + exact Hs.
  - exact Hs.
  - destruct (take i (pending s)) as [[file rest] |] eqn:E; [| exact Hs].
    pose proof (take_length _ _ _ _ E) as Hl.
    destruct Hs as [Hlen _].
    assert (Hrest : rest = []) by (destruct rest; [reflexivity | simpl in Hl; lia]).
    subst rest. unfold processVideoWithModel_resume.
    destruct (tryBody detail outcome); simpl;
      (split; [lia |]; split; [split; [discriminate | intros H; now elim H] |];
       constructor).
Qed.

(** X12. In a session where a file is only chosen while [loading] is off
    (the button that opens the dialog is disabled otherwise), at most one
    request is pending at any time, [loading] is on exactly while one is,
    and the pending request is for the file the component holds. *)
Theorem one_request_at_a_time (events : list (Event Json)) :
  Home.respectsDisabled detail toLowerCase (initial Json) events = true ->
  let s := fst (run detail toLowerCase (initial Json) events) in
  (List.length (pending s) <= 1)%nat
  /\ (loading s = true <-> pending s <> [])
  /\ Forall (fun file => uploadedFile s = Some file) (pending s).
Proof.
  intros Hok s. subst s.
  assert (H : forall events s,
             ((List.length (pending s) <= 1)%nat
              /\ (loading s = true <-> pending s <> [])
              /\ Forall (fun file => uploadedFile s = Some file) (pending s)) ->
             Home.respectsDisabled detail toLowerCase s events = true ->
             (List.length (pending (fst (run detail toLowerCase s events))) <= 1)%nat
             /\ (loading (fst (run detail toLowerCase s events)) = true
                 <-> pending (fst (run detail toLowerCase s events)) <> [])
             /\ Forall (fun file =>
                          uploadedFile (fst (run detail toLowerCase s events))
                          = Some file)
                       (pending (fst (run detail toLowerCase s events)))).
  { clear events Hok.
    induction events as [| ev later IH]; intros s Hs Hok.
    - exact Hs.
    - cbn [Home.respectsDisabled] in Hok. apply andb_true_iff in Hok.
      destruct Hok as [Hev Hlater].
      rewrite run_step. cbn [fst].
      apply IH; [| exact Hlater].
      now apply step_keeps_single_request. }
  apply H; [| exact Hok].
  simpl. split; [lia |]. split; [split; [discriminate | intros H0; now elim H0] |].
  constructor.
Qed.

End PageFacts.

Lemma one_request_at_a_time_sample :
  Home.respectsDisabled VideoUpload.sampleDetail JS.toLowerCase_ascii
    (VideoUpload.initial string)
    [VideoUpload.Change (Some VideoUpload.clip);
     VideoUpload.Settle 0 (VideoUpload.Resolved VideoUpload.okResponse);
     VideoUpload.Click VideoUpload.TransformerButton] = true
  /\ Forall (fun file => Some VideoUpload.clip = Some file)
            (VideoUpload.pending
               (fst (VideoUpload.run VideoUpload.sampleDetail JS.toLowerCase_ascii
                       (VideoUpload.initial string)
                       [VideoUpload.Change (Some VideoUpload.clip);
                        VideoUpload.Settle 0
                          (VideoUpload.Resolved VideoUpload.okResponse);
                        VideoUpload.Click VideoUpload.TransformerButton])))
  /\ VideoUpload.pending
       (fst (VideoUpload.run VideoUpload.sampleDetail JS.toLowerCase_ascii
               (VideoUpload.initial string)
               [VideoUpload.Change (Some VideoUpload.clip);
                VideoUpload.Settle 0 (VideoUpload.Resolved VideoUpload.okResponse);
                VideoUpload.Click VideoUpload.TransformerButton]))
     = [VideoUpload.clip].
Proof.
  split; [reflexivity |].
  destruct (one_request_at_a_time string VideoUpload.sampleDetail
              JS.toLowerCase_ascii
              [VideoUpload.Change (Some VideoUpload.clip);
               VideoUpload.Settle 0 (VideoUpload.Resolved VideoUpload.okResponse);
               VideoUpload.Click VideoUpload.TransformerButton]
              eq_refl) as [_ [_ Hfiles]].
  split; [exact Hfiles | reflexivity].
Defined.

(** Without that discipline two files chosen in a row are two requests in
    flight, and the first response turns [loading] off while the second
    request is still pending. *)
Example two_files_two_requests :
  let s := fst (VideoUpload.run VideoUpload.sampleDetail JS.toLowerCase_ascii
                  (VideoUpload.initial string)
                  [VideoUpload.Change (Some VideoUpload.clip);
                   VideoUpload.Change (Some VideoUpload.clip);
                   VideoUpload.Settle 0
                     (VideoUpload.Resolved VideoUpload.okResponse)]) in
  VideoUpload.loading s = false /\ VideoUpload.pending s = [VideoUpload.clip].
Proof. split; reflexivity. Qed.

(** ** Which names are accepted *)

Section AcceptedNames.

Import VideoUpload.
Local Open Scope string_scope.

Variable Json : Type.
Variable toLowerCase : string -> string.

Lemma occurs_split (c : ascii) (s : string) :
  JS.occurs c s = true ->
  exists base ext, s = base ++ String c ext /\ JS.occurs c ext = false.
Proof.
  induction s as [| a rest IH]; simpl; [discriminate |].
  destruct (JS.occurs c rest) eqn:Hrest.
  - intros _. destruct (IH eq_refl) as [base [ext [-> Hext]]].
    exists (String a base), ext. split; [reflexivity | exact Hext].
  - rewrite orb_false_r. intros Ha. apply Ascii.eqb_eq in Ha. subst a.
    exists "", rest. split; [reflexivity | exact Hrest].
Qed.

Lemma allowedTypes_have_dot (ext : string) :
  In ext allowedTypes -> JS.occurs "." ext = true.
Proof.
  unfold allowedTypes. simpl.
  intros [<- | [<- | [<- | [<- | [<- | []]]]]]; reflexivity.
Qed.

Lemma includes_In (arr : list string) (x : string) :
  JS.includes arr x = true <-> In x arr.
Proof.
  unfold JS.includes. rewrite existsb_exists. split.
  - intros [y [Hin Heq]]. apply String.eqb_eq in Heq. now subst y.
  - intros Hin. exists x. split; [exact Hin | apply String.eqb_refl].
Qed.

(** X13. Provided lowercasing never turns another character into a dot, a
    chosen file leads to a request exactly when its name has a last dot whose
    suffix, lowercased, is one of the five extensions; in particular a name
    without any dot is always answered with the extension message alone. *)
Theorem request_iff_last_suffix_allowed (file : File) (s : State Json) :
  (forall x, JS.occurs "." x = false -> JS.occurs "." (toLowerCase x) = false) ->
  (requests (handleVideoUpload toLowerCase (Some file) s) <> []
   <-> exists base ext,
         name file = base ++ "." ++ ext
         /\ JS.occurs "." ext = false
         /\ In (toLowerCase ("." ++ ext)) allowedTypes)
  /\ (JS.occurs "." (name file) = false ->
      handleVideoUpload toLowerCase (Some file) s
      = [SetUploadError None; SetUploadError (Some extensionMessage)]).
Proof.
  intros Hlower.
  assert (Hnodot : JS.occurs "." (name file) = false ->
                   JS.includes allowedTypes (fileExt toLowerCase file) = false).
  { intros Hno.
    destruct (JS.includes allowedTypes (fileExt toLowerCase file)) eqn:E;
      [| reflexivity].
    apply includes_In, allowedTypes_have_dot in E.
    rewrite (fileExt_no_dot toLowerCase file Hno), (Hlower _ Hno) in E.
    discriminate. }
  split.
  - unfold handleVideoUpload. split.
    + destruct (JS.includes allowedTypes (fileExt toLowerCase file)) eqn:E;
        [| intros H; now elim H].
      intros _.
      destruct (JS.occurs "." (name file)) eqn:Hdot;
        [| exfalso; specialize (Hnodot eq_refl); congruence].
      destruct (occurs_split "." (name file) Hdot) as [base [ext [Hname Hext]]].
      exists base, ext. split; [exact Hname |]. split; [exact Hext |].
      rewrite <- (fileExt_final toLowerCase file base ext Hname Hext).
      now apply includes_In.
    + intros [base [ext [Hname [Hext Hin]]]].
      rewrite <- (fileExt_final toLowerCase file base ext Hname Hext) in Hin.
      apply includes_In in Hin. rewrite Hin. simpl. discriminate.
  - intros Hno. unfold handleVideoUpload. rewrite (Hnodot Hno). reflexivity.
Qed.

End AcceptedNames.

Lemma lower_ascii_keeps_dots (a : ascii) :
  Ascii.eqb (JS.lower_ascii a) "." = Ascii.eqb a ".".
Proof. destruct a as [[] [] [] [] [] [] [] []]; reflexivity. Qed.

Lemma toLowerCase_ascii_keeps_dots (x : string) :
  JS.occurs "." x = false -> JS.occurs "." (JS.toLowerCase_ascii x) = false.
Proof.
  induction x as [| a rest IH]; simpl; [reflexivity |].
  rewrite lower_ascii_keeps_dots. intros H.
  apply orb_false_iff in H. destruct H as [Ha Hrest].
  now rewrite Ha, (IH Hrest).
Qed.

Lemma request_iff_last_suffix_allowed_sample :
  VideoUpload.requests
    (VideoUpload.handleVideoUpload JS.toLowerCase_ascii
       (Some {| VideoUpload.name := "mp4"; VideoUpload.content := "" |})
       (VideoUpload.initial string)) = []
  /\ VideoUpload.requests
       (VideoUpload.handleVideoUpload JS.toLowerCase_ascii
          (Some VideoUpload.clip) (VideoUpload.initial string)) <> [].
Proof.
  destruct (request_iff_last_suffix_allowed string JS.toLowerCase_ascii
              {| VideoUpload.name := "mp4"; VideoUpload.content := "" |}
              (VideoUpload.initial string) toLowerCase_ascii_keeps_dots)
    as [_ Hnodot].
  destruct (request_iff_last_suffix_allowed string JS.toLowerCase_ascii
              VideoUpload.clip (VideoUpload.initial string)
              toLowerCase_ascii_keeps_dots) as [Hiff _].
  split.
  - rewrite (Hnodot eq_refl). reflexivity.
  - apply Hiff. exists "swan.lake"%string, "MP4"%string.
    split; [reflexivity |]. split; [reflexivity |]. simpl. tauto.
Defined.

(** ** The sample session once more: a success, then a failed change of model *)

Lemma page_shows_latest_result_sample :
  let s := fst (VideoUpload.run VideoUpload.sampleDetail JS.toLowerCase_ascii
                  (VideoUpload.initial string)
                  [VideoUpload.Change (Some VideoUpload.clip);
                   VideoUpload.Settle 0
                     (VideoUpload.Resolved VideoUpload.okResponse);
                   VideoUpload.Click VideoUpload.TransformerButton;
                   VideoUpload.Settle 0
                     (VideoUpload.Resolved VideoUpload.errorResponse)]) in
  VideoUpload.prediction s = Some "{predictions}"%string
  /\ VideoUpload.uploadedVideoFile s = Some VideoUpload.clip
  /\ VideoUpload.selectedModel s = "transformer"%string
  /\ VideoUpload.error s = Some "Invalid file type"%string.
Proof.
  pose proof (page_shows_latest_result string VideoUpload.sampleDetail
                JS.toLowerCase_ascii
                [VideoUpload.Change (Some VideoUpload.clip);
                 VideoUpload.Settle 0 (VideoUpload.Resolved VideoUpload.okResponse);
                 VideoUpload.Click VideoUpload.TransformerButton;
                 VideoUpload.Settle 0
                   (VideoUpload.Resolved VideoUpload.errorResponse)]
                (fun _ => true)) as [Hp [Hf _]].
  vm_compute in Hp, Hf. vm_compute.
  split; [exact Hp |]. split; [exact Hf |]. split; reflexivity.
Defined.

Lemma requests_accounted_for_sample :
  let effects :=
    snd (VideoUpload.run VideoUpload.sampleDetail JS.toLowerCase_ascii
           (VideoUpload.initial string)
           [VideoUpload.Change (Some VideoUpload.clip);
            VideoUpload.Settle 0 (VideoUpload.Resolved VideoUpload.okResponse);
            VideoUpload.Click VideoUpload.TransformerButton;
            VideoUpload.Settle 0 (VideoUpload.Resolved VideoUpload.errorResponse);
            VideoUpload.Click VideoUpload.GruButton]) in
  List.length (VideoUpload.requests effects) = (1 + 1 + 1)%nat
  /\ Home.delivered effects = 1%nat
  /\ Home.reported effects = 1%nat.
Proof.
  pose proof (requests_accounted_for string VideoUpload.sampleDetail
                JS.toLowerCase_ascii
                [VideoUpload.Change (Some VideoUpload.clip);
                 VideoUpload.Settle 0 (VideoUpload.Resolved VideoUpload.okResponse);
                 VideoUpload.Click VideoUpload.TransformerButton;
                 VideoUpload.Settle 0
                   (VideoUpload.Resolved VideoUpload.errorResponse);
                 VideoUpload.Click VideoUpload.GruButton]) as H.
  vm_compute in H. vm_compute.
  split; [exact H |]. split; reflexivity.
Defined.
